(** * agentscope.models.response: the model response and its stream wrapper

    A shallow embedding of [src/agentscope/models/response.py].

    A [ModelResponse] carries the settled fields of a model call and, for a
    streaming call, the generator of chunks still to come.  The method
    [_stream_generator_wrapper] is itself a Python generator: its body runs
    only between two [next] calls of its consumer.  It is embedded as a
    small machine over the frames at which the body can be parked, one
    transition for each [next];
    the attributes of [self] are threaded through explicitly, because the
    wrapper, the [text] property and [__str__] all mutate the same object. *)

From Stdlib Require Import String List Bool ZArith Lia.
Import ListNotations.
Open Scope string_scope.

(** ** Chunks (the three dataclasses, lines 11-28) *)

Record FunctonChunk : Type := mkFunctonChunk {
  fc_name : string;
  fc_arguments : string
}.

Record ToolCallChunk : Type := mkToolCallChunk {
  tc_index : Z;
  tc_id : string;
  tc_type : string;
  tc_function : option FunctonChunk
}.

Record StreamChunk : Type := mkStreamChunk {
  sc_text : string;
  sc_tool_calls : option (list ToolCallChunk)
}.

(** What the underlying generator yields: [str | StreamChunk]. *)
Inductive item : Type :=
| Bare (s : string)
| Chunk (c : StreamChunk).

(** [hasattr(item, "text")]: a [StreamChunk] has the attribute, a [str] has
    not and stands for its own text (lines 125-128 and 135-138). *)
Definition item_text (it : item) : string :=
  match it with
  | Bare s => s
  | Chunk c => sc_text c
  end.

(** ** Exceptions and results *)

Inductive exn : Type :=
| RuntimeError
| AttributeError
| JSONDecodeError
| TypeError.

Inductive result (A : Type) : Type :=
| Ok (a : A)
| Raise (e : exn).
Arguments Ok {A} a.
Arguments Raise {A} e.

(** What one [next] on the wrapper generator gives its consumer. *)
Inductive signal : Type :=
| Yield (is_last : bool) (txt : string)
| StopIteration
| Raised (e : exn).

(** Where the body of [_stream_generator_wrapper] is parked. *)
Inductive frame : Type :=
| Fresh                                    (* created, body not entered *)
| Yielded (last_text : string) (it : item) (* at line 132, [it] already pulled *)
| Final (last_text : string)               (* at line 153 *)
| Closed.                                  (* returned or raised *)

(** Python truthiness of an optional list: [None] and [[]] are falsy. *)
Definition truthy {A : Type} (o : option (list A)) : bool :=
  match o with
  | Some (_ :: _) => true
  | _ => false
  end.

Section Response.

(** Python objects the module only passes around ([Any]), and the standard
    library's [json.loads]: [None] stands for a raised [JSONDecodeError]. *)
Variable Any : Type.
Variable json_loads : string -> option Any.

(** What [__str__] calls outside the module: [_is_json_serializable] of
    [agentscope.utils.common], the builtin [str], and [json.dumps] on the
    dictionary of serialized fields (declared below). *)
Variable _is_json_serializable : option Any -> bool.
Variable str : option Any -> string.

(** [ToolUseBlock] of [agentscope.message], a typed dict built by keywords. *)
Record ToolUseBlock : Type := mkToolUseBlock {
  tu_type : string;
  tu_id : string;
  tu_name : string;
  tu_input : Any
}.

(** The attributes of a [ModelResponse].  [_stream] holds the state of the
    generator object: the items it has yet to yield.  A generator object is
    truthy whatever it will yield. *)
Record ModelResponse : Type := mkModelResponse {
  _text : option string;
  embedding : option Any;
  image_urls : option (list string);
  raw : option Any;
  parsed : option Any;
  _stream : option (list item);
  tool_calls : option (list ToolUseBlock);
  tool_call_chunk_list : option (list ToolCallChunk);
  _is_stream_exhausted : bool
}.

Definition set_text (r : ModelResponse) (v : option string) : ModelResponse :=
  mkModelResponse v (embedding r) (image_urls r) (raw r) (parsed r)
    (_stream r) (tool_calls r) (tool_call_chunk_list r) (_is_stream_exhausted r).

Definition set_stream (r : ModelResponse) (s : option (list item)) : ModelResponse :=
  mkModelResponse (_text r) (embedding r) (image_urls r) (raw r) (parsed r)
    s (tool_calls r) (tool_call_chunk_list r) (_is_stream_exhausted r).

Definition set_tool_calls (r : ModelResponse) (t : option (list ToolUseBlock))
  : ModelResponse :=
  mkModelResponse (_text r) (embedding r) (image_urls r) (raw r) (parsed r)
    (_stream r) t (tool_call_chunk_list r) (_is_stream_exhausted r).

Definition set_tool_call_chunk_list (r : ModelResponse)
    (l : option (list ToolCallChunk)) : ModelResponse :=
  mkModelResponse (_text r) (embedding r) (image_urls r) (raw r) (parsed r)
    (_stream r) (tool_calls r) l (_is_stream_exhausted r).

(** [ModelResponse.__init__] (lines 66-76). *)
Definition __init__ (text : option string) (embedding : option Any)
    (image_urls : option (list string)) (raw parsed : option Any)
    (stream : option (list item)) (tool_calls : option (list ToolUseBlock))
  : ModelResponse :=
  let stream_truthy := match stream with Some _ => true | None => false end in
  mkModelResponse text embedding image_urls raw parsed stream
    (if stream_truthy && negb (truthy tool_calls) then Some [] else tool_calls)
    None false.

(** The [text] setter (lines 88-91). *)
Definition text_setter (r : ModelResponse) (value : string) : ModelResponse :=
  set_text r (Some value).

(** The [is_stream_exhausted] property (lines 101-104). *)
Definition is_stream_exhausted (r : ModelResponse) : bool :=
  _is_stream_exhausted r.

(** The [stream] property (lines 93-99): [None], or a new wrapper generator
    over [self], whose body has not started. *)
Definition stream (r : ModelResponse) : option frame :=
  match _stream r with
  | None => None
  | Some _ => Some Fresh
  end.

(** ** The body of [_stream_generator_wrapper] *)

(** Lines 123-124 and 133-134: a [StreamChunk] replaces the chunk list by
    its own [tool_calls] (also when that is [None]); a [str] leaves it. *)
Definition note_tool_calls (it : item) (r : ModelResponse) : ModelResponse :=
  match it with
  | Bare _ => r
  | Chunk c => set_tool_call_chunk_list r (sc_tool_calls c)
  end.

(** Lines 144-151, one round: [self.tool_calls.append] is looked up first,
    then the keywords of [ToolUseBlock] are evaluated left to right. *)
Definition append_tool_use (r : ModelResponse) (tcc : ToolCallChunk)
  : result ModelResponse :=
  match tool_calls r with
  | None => Raise AttributeError
  | Some tcs =>
      match tc_function tcc with
      | None => Raise AttributeError
      | Some f =>
          match json_loads (fc_arguments f) with
          | None => Raise JSONDecodeError
          | Some v =>
              Ok (set_tool_calls r
                    (Some (tcs ++ [mkToolUseBlock "tool_use" (tc_id tcc) (fc_name f) v])%list))
          end
      end
  end.

(** Lines 143-151: the loop stops at the first round that raises and keeps
    what the earlier rounds appended. *)
Fixpoint finalize_loop (l : list ToolCallChunk) (r : ModelResponse)
  : option exn * ModelResponse :=
  match l with
  | [] => (None, r)
  | tcc :: l' =>
      match append_tool_use r tcc with
      | Ok r' => finalize_loop l' r'
      | Raise e => (Some e, r)
      end
  end.

(** Lines 141-151. *)
Definition finalize (r : ModelResponse) : option exn * ModelResponse :=
  if truthy (tool_call_chunk_list r) then
    match tool_call_chunk_list r with
    | Some l => finalize_loop l r
    | None => (None, r)
    end
  else (None, r).

(** Lines 140-153: the source is exhausted. *)
Definition after_loop (last_text : string) (r : ModelResponse)
  : signal * frame * ModelResponse :=
  let r1 := set_text r (Some last_text) in
  match finalize r1 with
  | (None, r2) => (Yield true last_text, Final last_text, r2)
  | (Some e, r2) => (Raised e, Closed, r2)
  end.

(** Line 130, the [for] statement asking the source for its next item, and
    lines 131-132 when there is one. *)
Definition for_next (last_text : string) (r : ModelResponse)
  : signal * frame * ModelResponse :=
  match _stream r with
  | Some (it :: rest) =>
      (Yield false last_text, Yielded last_text it,
       set_text (set_stream r (Some rest)) (Some last_text))
  | _ => after_loop last_text r
  end.

(** [_stream_generator_wrapper] (lines 106-157), as one [next] on the
    generator it makes: the body runs from where it is parked to its next
    [yield], [return] or uncaught exception. *)
Definition _stream_generator_wrapper (f : frame) (r : ModelResponse)
  : signal * frame * ModelResponse :=
  match f with
  | Fresh =>
      if _is_stream_exhausted r then (Raised RuntimeError, Closed, r)
      else
        match _stream r with
        | None => (StopIteration, Closed, r)                  (* lines 118-119 *)
        | Some [] => (StopIteration, Closed, r)               (* lines 122, 156-157 *)
        | Some (last_item :: rest) =>
            for_next (item_text last_item)
              (note_tool_calls last_item (set_stream r (Some rest)))
        end
  | Yielded _ it => for_next (item_text it) (note_tool_calls it r)
  | Final _ => (StopIteration, Closed, r)                     (* line 155 *)
  | Closed => (StopIteration, Closed, r)
  end.

(** ** Consumers of the wrapper generator *)

(** [for _, chunk in gen: body(chunk)], by the number of [next] calls it may
    make.  The result is the pairs the generator yielded, the exception that
    ended the loop if one did, and the object afterwards; [None] only when
    [fuel] calls were not enough. *)
Fixpoint for_each (fuel : nat) (body : string -> ModelResponse -> ModelResponse)
    (f : frame) (r : ModelResponse)
  : option (list (bool * string) * option exn * ModelResponse) :=
  match fuel with
  | O => None
  | S k =>
      match _stream_generator_wrapper f r with
      | (Yield b t, f', r') =>
          match for_each k body f' (body t r') with
          | Some (seen, out, r'') => Some ((b, t) :: seen, out, r'')
          | None => None
          end
      | (StopIteration, _, r') => Some ([], None, r')
      | (Raised e, _, r') => Some ([], Some e, r')
      end
  end.

(** The [next] calls a loop over a new wrapper needs at most: one per item
    left in the source and one that ends the loop. *)
Definition calls (r : ModelResponse) : nat :=
  match _stream r with
  | Some l => S (length l)
  | None => 1
  end.

(** A caller's [for pair in response.stream: pass], the incremental view
    iterated to completion.  Iterating [None] is a [TypeError]. *)
Definition iterate (r : ModelResponse)
  : option (list (bool * string) * option exn * ModelResponse) :=
  match stream r with
  | None => Some ([], Some TypeError, r)
  | Some g => for_each (calls r) (fun _ r' => r') g r
  end.

(** The [text] property (lines 78-86).  The property [stream] is read
    twice; the generator made by the first read is dropped with its body
    never entered. *)
Definition text (r : ModelResponse)
  : option (result (option string) * ModelResponse) :=
  match _text r with
  | Some t => Some (Ok (Some t), r)
  | None =>
      match stream r with
      | None => Some (Ok None, r)
      | Some g =>
          match for_each (calls r) (fun chunk r' => set_text r' (Some chunk)) g r with
          | Some (_, None, r') => Some (Ok (_text r'), r')
          | Some (_, Some e, r') => Some (Raise e, r')
          | None => None
          end
      end
  end.

(** The dictionary [__str__] hands to [json.dumps]; [raw] is the object
    itself or its [str]. *)
Record serialized_fields : Type := mkSerializedFields {
  sf_text : option string;
  sf_embedding : option Any;
  sf_image_urls : option (list string);
  sf_parsed : option Any;
  sf_raw : option Any + string
}.

Variable json_dumps : serialized_fields -> result string.

(** [ModelResponse.__str__] (lines 159-172). *)
Definition __str__ (r : ModelResponse) : option (result string * ModelResponse) :=
  let raw' := if _is_json_serializable (raw r) then inl (raw r) else inr (str (raw r)) in
  match text r with
  | Some (Ok t, r') =>
      Some (json_dumps
              (mkSerializedFields t (embedding r') (image_urls r') (parsed r') raw'),
            r')
  | Some (Raise e, r') => Some (Raise e, r')
  | None => None
  end.

End Response.

Arguments mkToolUseBlock {Any}.
Arguments mkModelResponse {Any}.
Arguments _text {Any}.
Arguments embedding {Any}.
Arguments image_urls {Any}.
Arguments raw {Any}.
Arguments parsed {Any}.
Arguments _stream {Any}.
Arguments tool_calls {Any}.
Arguments tool_call_chunk_list {Any}.
Arguments _is_stream_exhausted {Any}.
Arguments set_text {Any}.
Arguments set_stream {Any}.
Arguments set_tool_calls {Any}.
Arguments set_tool_call_chunk_list {Any}.
Arguments __init__ {Any}.
Arguments text_setter {Any}.
Arguments is_stream_exhausted {Any}.
Arguments stream {Any}.
Arguments note_tool_calls {Any}.
Arguments append_tool_use {Any}.
Arguments finalize_loop {Any}.
Arguments finalize {Any}.
Arguments after_loop {Any}.
Arguments for_next {Any}.
Arguments _stream_generator_wrapper {Any}.
Arguments for_each {Any}.
Arguments calls {Any}.
Arguments iterate {Any}.
Arguments text {Any}.
Arguments mkSerializedFields {Any}.
Arguments __str__ {Any}.

(** ** Closed forms used by the statements *)

(** The chunk list the wrapper holds once it has looked at the items [l]:
    the [tool_calls] of the last [StreamChunk] among them, or [init] when
    every item was a [str]. *)
Definition chunk_list_after (init : option (list ToolCallChunk)) (l : list item)
  : option (list ToolCallChunk) :=
  fold_left (fun acc it => match it with
                           | Bare _ => acc
                           | Chunk c => sc_tool_calls c
                           end) l init.

(** The fields [__init__] stores and no other method assigns. *)
Definition payload {Any : Type} (r : ModelResponse Any)
  : option Any * option (list string) * option Any * option Any :=
  (embedding r, image_urls r, raw r, parsed r).

(** The items that are plain [str] values. *)
Definition is_str (it : item) : bool :=
  match it with
  | Bare _ => true
  | Chunk _ => false
  end.

(** The text of the last of the items [l]. *)
Definition last_text (l : list item) : string :=
  item_text (last l (Bare "")).

(** The object when the source has just reported exhaustion and line 140 has
    run, before the chunk list is turned into tool uses. *)
Definition drained {Any : Type} (r : ModelResponse Any) (l : list item)
  : ModelResponse Any :=
  mkModelResponse (Some (last_text l)) (embedding r) (image_urls r)
    (raw r) (parsed r) (Some []) (tool_calls r)
    (chunk_list_after (tool_call_chunk_list r) l) (_is_stream_exhausted r).

(** The pairs yielded while the source still had a next item. *)
Definition not_last (l : list item) : list (bool * string) :=
  map (fun it => (false, item_text it)) (removelast l).

(** The pair of line 153, reached only when lines 141-151 raised nothing. *)
Definition closing (out : option exn) (t : string) : list (bool * string) :=
  match out with
  | None => [(true, t)]
  | Some _ => []
  end.

(** All the pairs of a run over the items [l] that ended with [out]. *)
Definition pairs (l : list item) (out : option exn) : list (bool * string) :=
  (not_last l ++ closing out (last_text l))%list.

(** The tool uses built from a chunk list when every round succeeds. *)
Fixpoint blocks_of {Any : Type} (json_loads : string -> option Any)
    (l : list ToolCallChunk) : option (list (ToolUseBlock Any)) :=
  match l with
  | [] => Some []
  | tcc :: l' =>
      match tc_function tcc with
      | None => None
      | Some f =>
          match json_loads (fc_arguments f), blocks_of json_loads l' with
          | Some v, Some bs =>
              Some (mkToolUseBlock "tool_use" (tc_id tcc) (fc_name f) v :: bs)
          | _, _ => None
          end
      end
  end.

(** The same loop as [for_each] with the empty body, recording at each pair
    what a caller sees on the object at that moment: the settled [_text] and
    the items still in the source. *)
Fixpoint watch {Any : Type} (json_loads : string -> option Any) (fuel : nat)
    (f : frame) (r : ModelResponse Any)
  : list (bool * string * option string * option (list item)) :=
  match fuel with
  | O => []
  | S k =>
      match _stream_generator_wrapper json_loads f r with
      | (Yield b t, f', r') => (b, t, _text r', _stream r') :: watch json_loads k f' r'
      | _ => []
      end
  end.

(** What [watch] is expected to record over the items [l]: each pair carries
    the text of one item, the settled text equals it, and the source is one
    item further on. *)
Fixpoint one_behind (l : list item)
  : list (bool * string * option string * option (list item)) :=
  match l with
  | [] => []
  | it :: tl =>
      match tl with
      | [] => [(true, item_text it, Some (item_text it), Some [])]
      | _ :: rest =>
          (false, item_text it, Some (item_text it), Some rest) :: one_behind tl
      end
  end.

(** ** Calls of [next] on the source

    [_stream] holds the items the source has yet to yield, so a [next] that
    finds the source exhausted leaves no trace on the object.  These
    functions count the calls themselves: line 122 and the [for] statement
    of line 130 each ask the source once, whether or not an item is left. *)

(** The calls one [next] on the wrapper makes on the source.  A new wrapper
    makes none when the guard of lines 111-115 raises or there is no stream
    (lines 118-119), one when line 122 finds the source exhausted, and two
    otherwise (line 122, then line 130); a wrapper parked at line 132 makes
    one (line 130); a wrapper parked at line 153, or finished, makes none. *)
Definition pulls_of_next {Any : Type} (f : frame) (r : ModelResponse Any) : nat :=
  match f with
  | Fresh =>
      if _is_stream_exhausted r then 0
      else
        match _stream r with
        | None => 0
        | Some [] => 1
        | Some (_ :: _) => 2
        end
  | Yielded _ _ => 1
  | Final _ => 0
  | Closed => 0
  end.

(** The calls on the source made by the loop [for_each]. *)
Fixpoint for_each_pulls {Any : Type} (json_loads : string -> option Any)
    (fuel : nat) (body : string -> ModelResponse Any -> ModelResponse Any)
    (f : frame) (r : ModelResponse Any) : nat :=
  match fuel with
  | O => 0
  | S k =>
      pulls_of_next f r +
      match _stream_generator_wrapper json_loads f r with
      | (Yield _ t, f', r') => for_each_pulls json_loads k body f' (body t r')
      | _ => 0
      end
  end.

(** The calls on the source made by one read of the [text] property (lines
    78-86): none when [_text] is set or there is no stream. *)
Definition text_pulls {Any : Type} (json_loads : string -> option Any)
    (r : ModelResponse Any) : nat :=
  match _text r with
  | Some _ => 0
  | None =>
      match stream r with
      | None => 0
      | Some g =>
          for_each_pulls json_loads (calls r)
            (fun chunk r' => set_text r' (Some chunk)) g r
      end
  end.

(** ** The decoder as the specification words it

    The specification describes text deltas that are concatenated and
    tool-call fragments merged by [index].  These definitions follow its
    words; they are compared with the code below. *)

Definition spec_settled_text (l : list item) : string :=
  String.concat "" (map item_text l).

Definition spec_fill (old new : string) : string :=
  if String.eqb old "" then new else old.

Definition spec_extend (e fr : ToolCallChunk) : ToolCallChunk :=
  mkToolCallChunk (tc_index e) (spec_fill (tc_id e) (tc_id fr)) (tc_type e)
    match tc_function e, tc_function fr with
    | Some f, Some g =>
        Some (mkFunctonChunk (spec_fill (fc_name f) (fc_name g))
                (fc_arguments f ++ fc_arguments g))
    | Some f, None => Some f
    | None, g => g
    end.

Fixpoint spec_merge (acc : list ToolCallChunk) (fr : ToolCallChunk)
  : list ToolCallChunk :=
  match acc with
  | [] => [fr]
  | e :: acc' =>
      if Z.eqb (tc_index e) (tc_index fr) then spec_extend e fr :: acc'
      else e :: spec_merge acc' fr
  end.

Definition spec_accumulate (l : list item) : list ToolCallChunk :=
  fold_left (fun acc it =>
               match it with
               | Bare _ => acc
               | Chunk c =>
                   match sc_tool_calls c with
                   | Some frs => fold_left spec_merge frs acc
                   | None => acc
                   end
               end) l [].

(** ** A runtime for the worked examples

    The closed examples need some Python values and some decoder.
    [sample_json_loads] agrees with [json.loads] on the documents the
    examples hand it: [[1,2]] and [{}] decode, while the empty string (the
    default [arguments] of a [FunctonChunk]) and the fragments [[1,] and [2]]
    are malformed.  Nothing proved for every decoder depends on it. *)

Inductive PyObj : Type :=
| PyInts (l : list Z)
| PyEmptyDict.

Definition sample_json_loads (s : string) : option PyObj :=
  if String.eqb s "[1,2]" then Some (PyInts [1%Z; 2%Z])
  else if String.eqb s "{}" then Some PyEmptyDict
  else None.

(** A response as a backend builds it for a streaming call: only [stream]
    is passed. *)
Definition streaming (chunks : list item) : ModelResponse PyObj :=
  __init__ None None None None None (Some chunks) None.

(** The two text chunks of the specification's example. *)
Definition hello : list item := [Bare "Hel"; Bare "lo"].

(** A chunk with one complete tool call, then a last plain text item. *)
Definition whole_call : ToolCallChunk :=
  mkToolCallChunk 0 "call_1" "function" (Some (mkFunctonChunk "f" "[1,2]")).
Definition one_call : list item :=
  [Chunk (mkStreamChunk "a" (Some [whole_call])); Bare "b"].

(** Two fragments of one tool call, as two chunks of a stream. *)
Definition frag_open : ToolCallChunk :=
  mkToolCallChunk 0 "call_1" "function" (Some (mkFunctonChunk "f" "[1,")).
Definition frag_close : ToolCallChunk :=
  mkToolCallChunk 0 "" "" (Some (mkFunctonChunk "" "2]")).
Definition two_fragments : list item :=
  [Chunk (mkStreamChunk "" (Some [frag_open]));
   Chunk (mkStreamChunk "" (Some [frag_close]))].

(** A chunk whose tool call has the default, empty [arguments]. *)
Definition empty_arguments : list item :=
  [Chunk (mkStreamChunk "a"
            (Some [mkToolCallChunk 0 "call_1" "function" (Some (mkFunctonChunk "f" ""))]))].

(** A tool call whose [arguments] is the default empty string. *)
Definition bad_call : ToolCallChunk :=
  mkToolCallChunk 0 "call_1" "function" (Some (mkFunctonChunk "f" "")).

(** One chunk with a complete tool call followed by [bad_call]. *)
Definition call_then_bad : list item :=
  [Chunk (mkStreamChunk "a"
            (Some [mkToolCallChunk 1 "call_2" "function"
                     (Some (mkFunctonChunk "g" "{}"));
                   bad_call]))].

(** One chunk with a fragment that has no function, then [bad_call]. *)
Definition bare_then_bad : list item :=
  [Chunk (mkStreamChunk "a" (Some [mkToolCallChunk 1 "" "" None; bad_call]))].

(** A chunk carrying [bad_call], then a chunk with text only. *)
Definition bad_then_text : list item :=
  [Chunk (mkStreamChunk "a" (Some [bad_call])); Chunk (mkStreamChunk "b" None)].

(** [ToolCallChunk(index=1)], every other field at its default. *)
Definition bare_fragment : ToolCallChunk := mkToolCallChunk 1 "" "" None.

(** One chunk with a complete tool call followed by a bare fragment. *)
Definition call_then_bare : list item :=
  [Chunk (mkStreamChunk "a" (Some [whole_call; bare_fragment]))].

(** A chunk with a tool call, then a chunk with text only. *)
Definition call_then_text : list item :=
  [Chunk (mkStreamChunk "a" (Some [whole_call])); Chunk (mkStreamChunk "b" None)].

(** A response built with both a text and a stream. *)
Definition done_response : ModelResponse PyObj :=
  __init__ (Some "done") None None None None (Some hello) None.

(** Three plain text items. *)
Definition abc : list item := [Bare "a"; Bare "b"; Bare "c"].

(** * Properties *)

Section Facts.

Variable Any : Type.
Variable json_loads : string -> option Any.

#[local] Abbreviation Response := (ModelResponse Any).
#[local] Abbreviation idle := (fun (_ : string) (r' : ModelResponse Any) => r').
#[local] Abbreviation settle :=
  (fun (chunk : string) (r' : ModelResponse Any) => set_text r' (Some chunk)).

(** ** What the wrapper never touches *)

Lemma set_tool_calls_same (r : Response) : set_tool_calls r (tool_calls r) = r.
Proof. destruct r; reflexivity. Qed.

Lemma append_tool_use_frame (r r' : Response) (tcc : ToolCallChunk) :
  append_tool_use json_loads r tcc = Ok r' ->
  exists t, r' = set_tool_calls r (Some t).
Proof.
  unfold append_tool_use.
  destruct (tool_calls r) as [tcs|]; [|discriminate].
  destruct (tc_function tcc) as [f|]; [|discriminate].
  destruct (json_loads (fc_arguments f)) as [v|]; [|discriminate].
  intros E; injection E as <-. eauto.
Qed.

Lemma finalize_loop_frame (l : list ToolCallChunk) :
  forall r : Response,
    exists t, snd (finalize_loop json_loads l r) = set_tool_calls r t.
Proof.
  induction l as [|tcc l IH]; intros r; simpl.
  - exists (tool_calls r). now rewrite set_tool_calls_same.
  - destruct (append_tool_use json_loads r tcc) as [r'|e] eqn:E; simpl.
    + apply append_tool_use_frame in E as [t ->].
      destruct (IH (set_tool_calls r (Some t))) as [t' ->].
      exists t'. destruct r; reflexivity.
    + exists (tool_calls r). now rewrite set_tool_calls_same.
Qed.

Lemma finalize_frame (r : Response) :
  exists t, snd (finalize json_loads r) = set_tool_calls r t.
Proof.
  unfold finalize.
  destruct (truthy (tool_call_chunk_list r)).
  - destruct (tool_call_chunk_list r) as [l|].
    + apply finalize_loop_frame.
    + exists (tool_calls r). now rewrite set_tool_calls_same.
  - exists (tool_calls r). now rewrite set_tool_calls_same.
Qed.

(** The attributes other than [tool_calls] after lines 141-151. *)
Lemma finalize_keeps (r : Response) :
  let r' := snd (finalize json_loads r) in
  _text r' = _text r /\ _stream r' = _stream r /\
  tool_call_chunk_list r' = tool_call_chunk_list r /\
  _is_stream_exhausted r' = _is_stream_exhausted r.
Proof.
  destruct (finalize_frame r) as [t E]. simpl. rewrite E.
  destruct r; simpl; auto.
Qed.

Lemma note_tool_calls_keeps (it : item) (r : Response) :
  _text (note_tool_calls it r) = _text r /\
  _stream (note_tool_calls it r) = _stream r /\
  tool_calls (note_tool_calls it r) = tool_calls r /\
  _is_stream_exhausted (note_tool_calls it r) = _is_stream_exhausted r.
Proof. destruct it; simpl; auto. Qed.

Lemma after_loop_flag (t : string) (r : Response) :
  _is_stream_exhausted (snd (after_loop json_loads t r)) = _is_stream_exhausted r.
Proof.
  unfold after_loop.
  pose proof (finalize_keeps (set_text r (Some t))) as K. simpl in K.
  destruct (finalize json_loads (set_text r (Some t))) as [[e|] r2]; simpl in *;
    now destruct K as (_ & _ & _ & ->).
Qed.

Lemma for_next_flag (t : string) (r : Response) :
  _is_stream_exhausted (snd (for_next json_loads t r)) = _is_stream_exhausted r.
Proof.
  unfold for_next.
  destruct (_stream r) as [[|it rest]|]; try apply after_loop_flag.
  reflexivity.
Qed.

(** No [next] on the wrapper changes [_is_stream_exhausted]: the module has
    no assignment to it besides the one in [__init__]. *)
Lemma wrapper_flag (f : frame) (r : Response) :
  _is_stream_exhausted (snd (_stream_generator_wrapper json_loads f r)) = _is_stream_exhausted r.
Proof.
  destruct f as [|lt it|lt|]; simpl; try reflexivity.
  - destruct (_is_stream_exhausted r) eqn:E; [exact E|].
    destruct (_stream r) as [[|x rest]|]; try exact E.
    rewrite for_next_flag.
    destruct (note_tool_calls_keeps x (set_stream r (Some rest))) as (_ & _ & _ & ->).
    exact E.
  - rewrite for_next_flag. apply note_tool_calls_keeps.
Qed.

Lemma for_each_flag (fuel : nat) :
  forall (f : frame) (r r1 : Response) seen out,
    for_each json_loads fuel idle f r = Some (seen, out, r1) ->
    _is_stream_exhausted r1 = _is_stream_exhausted r.
Proof.
  induction fuel as [|k IH]; intros f r r1 seen out; simpl; [discriminate|].
  pose proof (wrapper_flag f r) as W.
  destruct (_stream_generator_wrapper json_loads f r) as [[[b t| |e] f'] r'];
    simpl in W.
  - destruct (for_each json_loads k idle f' r') as [[[seen' out'] r'']|] eqn:E;
      [|discriminate].
    intros H; injection H as _ _ <-. rewrite <- W. exact (IH _ _ _ _ _ E).
  - intros H; injection H as _ _ <-. exact W.
  - intros H; injection H as _ _ <-. exact W.
Qed.

(** ** A yielded pair has already been written to [_text] *)

Lemma wrapper_yield_text (f f' : frame) (r r' : Response) (b : bool) (t : string) :
  _stream_generator_wrapper json_loads f r = (Yield b t, f', r') -> _text r' = Some t.
Proof.
  assert (A : forall lt (q : Response) b' t' g q',
             after_loop json_loads lt q = (Yield b' t', g, q') -> _text q' = Some t').
  { intros lt q b' t' g q'. unfold after_loop.
    pose proof (finalize_keeps (set_text q (Some lt))) as K. simpl in K.
    destruct (finalize json_loads (set_text q (Some lt))) as [[e|] r2]; simpl in *;
      [discriminate|].
    intros E; injection E as _ <- _ <-. now destruct K as (-> & _). }
  assert (N : forall lt (q : Response) b' t' g q',
             for_next json_loads lt q = (Yield b' t', g, q') -> _text q' = Some t').
  { intros lt q b' t' g q'. unfold for_next.
    destruct (_stream q) as [[|it rest]|]; try apply A.
    intros E; injection E as _ <- _ <-. reflexivity. }
  destruct f as [|lt it|lt|]; simpl; try discriminate.
  - destruct (_is_stream_exhausted r); [discriminate|].
    destruct (_stream r) as [[|x rest]|]; try discriminate. apply N.
  - apply N.
Qed.

Lemma set_text_same (r : Response) (t : string) :
  _text r = Some t -> set_text r (Some t) = r.
Proof. destruct r; simpl; now intros ->. Qed.

(** The body of the loop in the [text] property assigns what the wrapper
    assigned just before it yielded, so it changes nothing. *)
Lemma for_each_settle (fuel : nat) :
  forall (f : frame) (r : Response),
    for_each json_loads fuel settle f r = for_each json_loads fuel idle f r.
Proof.
  induction fuel as [|k IH]; intros f r; simpl; [reflexivity|].
  destruct (_stream_generator_wrapper json_loads f r) as [[[b t| |e] f'] r'] eqn:E; try reflexivity.
  rewrite (set_text_same _ _ (wrapper_yield_text _ _ _ _ _ _ E)).
  now rewrite IH.
Qed.

(** ** The whole run of the wrapper *)

Lemma drained_step (r : Response) (it x : item) (rest : list item) (t : string) :
  drained (set_text (set_stream (note_tool_calls it r) (Some rest)) (Some t))
          (x :: rest)
  = drained r (it :: x :: rest).
Proof. destruct r, it; reflexivity. Qed.

Lemma drained_last (r : Response) (it : item) :
  _stream r = Some [] ->
  set_text (note_tool_calls it r) (Some (item_text it)) = drained r [it].
Proof. destruct r, it; simpl; now intros ->. Qed.

(** From the first [yield False] on: the pending item [it] and the items
    [rest] still in the source. *)
Lemma run_yielded (rest : list item) :
  forall (it : item) (lt : string) (r : Response) (fuel : nat),
    _stream r = Some rest ->
    S (S (length rest)) <= fuel ->
    for_each json_loads fuel idle (Yielded lt it) r
    = Some (pairs (it :: rest) (fst (finalize json_loads (drained r (it :: rest)))),
            fst (finalize json_loads (drained r (it :: rest))),
            snd (finalize json_loads (drained r (it :: rest)))).
Proof.
  induction rest as [|x rest IH]; intros it lt r fuel Hs Hf.
  - destruct fuel as [|[|k]]; simpl in Hf; try lia.
    cbn [for_each _stream_generator_wrapper]. unfold for_next.
    destruct (note_tool_calls_keeps it r) as (_ & -> & _). rewrite Hs.
    unfold after_loop. rewrite (drained_last r it Hs).
    destruct (finalize json_loads (drained r [it])) as [[e|] r2]; reflexivity.
  - destruct fuel as [|k]; simpl in Hf; try lia.
    cbn [for_each _stream_generator_wrapper]. unfold for_next.
    destruct (note_tool_calls_keeps it r) as (_ & -> & _). rewrite Hs.
    rewrite (IH x (item_text it)); [|reflexivity|lia].
    rewrite drained_step. reflexivity.
Qed.

Lemma drained_first (r : Response) (x : item) (rest : list item) :
  _stream r = Some (x :: rest) ->
  drained (set_stream r (Some rest)) (x :: rest) = drained r (x :: rest).
Proof. destruct r; reflexivity. Qed.

(** A loop over a new wrapper, on a source with at least one item. *)
Lemma run_fresh (r : Response) (x : item) (rest : list item) (fuel : nat) :
  _stream r = Some (x :: rest) ->
  _is_stream_exhausted r = false ->
  S (S (length rest)) <= fuel ->
  for_each json_loads fuel idle Fresh r
  = Some (pairs (x :: rest) (fst (finalize json_loads (drained r (x :: rest)))),
          fst (finalize json_loads (drained r (x :: rest))),
          snd (finalize json_loads (drained r (x :: rest)))).
Proof.
  intros Hs Hx Hf.
  pose proof (run_yielded rest x "" (set_stream r (Some rest)) fuel eq_refl Hf) as R.
  rewrite (drained_first r x rest Hs) in R. rewrite <- R.
  destruct fuel as [|k]; [lia|].
  cbn [for_each _stream_generator_wrapper]. rewrite Hx, Hs. reflexivity.
Qed.

Lemma finalize_drained (r : Response) (l : list item) :
  let r1 := snd (finalize json_loads (drained r l)) in
  _text r1 = Some (last_text l) /\ _stream r1 = Some [] /\
  tool_call_chunk_list r1 = chunk_list_after (tool_call_chunk_list r) l /\
  _is_stream_exhausted r1 = _is_stream_exhausted r.
Proof. exact (finalize_keeps (drained r l)). Qed.

(** [for pair in response.stream] on a source with at least one item. *)
Lemma iterate_run (r : Response) (l : list item) :
  _stream r = Some l -> l <> [] -> _is_stream_exhausted r = false ->
  iterate json_loads r
  = Some (pairs l (fst (finalize json_loads (drained r l))),
          fst (finalize json_loads (drained r l)),
          snd (finalize json_loads (drained r l))).
Proof.
  intros Hs Hl Hx. destruct l as [|x rest]; [congruence|].
  unfold iterate, stream, calls. rewrite Hs.
  apply run_fresh; simpl; auto.
Qed.

(** The [text] property on an untouched source with at least one item. *)
Lemma text_run (r : Response) (l : list item) :
  _stream r = Some l -> l <> [] -> _is_stream_exhausted r = false ->
  _text r = None ->
  text json_loads r
  = Some (match fst (finalize json_loads (drained r l)) with
          | None => Ok (Some (last_text l))
          | Some e => Raise e
          end,
          snd (finalize json_loads (drained r l))).
Proof.
  intros Hs Hl Hx Ht. destruct l as [|x rest]; [congruence|].
  unfold text, stream, calls. rewrite Ht, Hs, for_each_settle.
  cbn [length].
  rewrite (run_fresh r x rest _ Hs Hx (le_n _)).
  destruct (finalize_drained r (x :: rest)) as (E & _).
  destruct (fst (finalize json_loads (drained r (x :: rest)))); [reflexivity|].
  now rewrite E.
Qed.

(** Both consumers on a source that has nothing left. *)
Lemma iterate_empty (r : Response) :
  _stream r = Some [] -> _is_stream_exhausted r = false ->
  iterate json_loads r = Some ([], None, r).
Proof.
  intros Hs Hx. unfold iterate, stream, calls. rewrite Hs. simpl.
  now rewrite Hx, Hs.
Qed.

Lemma text_empty (r : Response) :
  _stream r = Some [] -> _is_stream_exhausted r = false ->
  text json_loads r = Some (Ok (_text r), r).
Proof.
  intros Hs Hx. unfold text, stream, calls. rewrite Hs.
  destruct (_text r) as [t|] eqn:Ht; [reflexivity|].
  simpl. now rewrite Hx, Hs, Ht.
Qed.

Lemma text_on_drained (r : Response) :
  _stream r = Some [] -> exists v, text json_loads r = Some (v, r).
Proof.
  intros Hs. unfold text, stream, calls. rewrite Hs.
  destruct (_text r) as [t|] eqn:Ht; [eauto|]. simpl.
  destruct (_is_stream_exhausted r); [eauto|].
  rewrite Hs, Ht. eauto.
Qed.

(** Neither consumer changes [_is_stream_exhausted]. *)
Lemma iterate_flag (r r1 : Response) seen out :
  iterate json_loads r = Some (seen, out, r1) ->
  _is_stream_exhausted r1 = _is_stream_exhausted r.
Proof.
  unfold iterate. destruct (stream r) as [g|].
  - apply for_each_flag.
  - intros H; now injection H as _ _ <-.
Qed.

Lemma text_flag (r r1 : Response) v :
  text json_loads r = Some (v, r1) ->
  _is_stream_exhausted r1 = _is_stream_exhausted r.
Proof.
  unfold text. destruct (_text r) as [t|].
  - intros H; now injection H as _ <-.
  - destruct (stream r) as [g|].
    + rewrite for_each_settle.
      destruct (for_each json_loads (calls r) idle g r) as [[[seen [e|]] r']|] eqn:E;
        try discriminate; intros H; injection H as _ <-;
        exact (for_each_flag _ _ _ _ _ _ E).
    + intros H; now injection H as _ <-.
Qed.

(** Neither consumer runs out of [next] calls. *)
Lemma iterate_total (r : Response) :
  exists seen out r1, iterate json_loads r = Some (seen, out, r1).
Proof.
  destruct (_stream r) as [l|] eqn:Hs.
  - destruct (_is_stream_exhausted r) eqn:Hx.
    + unfold iterate, stream, calls. rewrite Hs. simpl. rewrite Hx. eauto.
    + destruct l as [|x rest].
      * rewrite (iterate_empty r Hs Hx). eauto.
      * rewrite (iterate_run r (x :: rest) Hs ltac:(discriminate) Hx). eauto.
  - unfold iterate, stream. rewrite Hs. eauto.
Qed.

Lemma text_total (r : Response) :
  exists v r1, text json_loads r = Some (v, r1).
Proof.
  destruct (_text r) as [t|] eqn:Ht.
  - unfold text. rewrite Ht. eauto.
  - destruct (_stream r) as [l|] eqn:Hs.
    + destruct (_is_stream_exhausted r) eqn:Hx.
      * unfold text, stream, calls. rewrite Ht, Hs. simpl. rewrite Hx. eauto.
      * destruct l as [|x rest].
        -- rewrite (text_empty r Hs Hx). eauto.
        -- rewrite (text_run r (x :: rest) Hs ltac:(discriminate) Hx Ht). eauto.
    + unfold text, stream. rewrite Ht, Hs. eauto.
Qed.

(** ** Lines 141-151 *)

Lemma finalize_falsy (r : Response) :
  truthy (tool_call_chunk_list r) = false -> finalize json_loads r = (None, r).
Proof. unfold finalize. now intros ->. Qed.

Lemma finalize_some (r : Response) (l : list ToolCallChunk) :
  tool_call_chunk_list r = Some l ->
  finalize json_loads r = finalize_loop json_loads l r.
Proof.
  unfold finalize. intros ->. destruct l; reflexivity.
Qed.

(** Every round succeeds: one tool use per entry, in the order of the list. *)
Lemma finalize_loop_ok (l : list ToolCallChunk) :
  forall (r : Response) (tcs bs : list (ToolUseBlock Any)),
    tool_calls r = Some tcs ->
    blocks_of json_loads l = Some bs ->
    finalize_loop json_loads l r = (None, set_tool_calls r (Some (tcs ++ bs)%list)).
Proof.
  induction l as [|tcc l IH]; intros r tcs bs Ht Hb; simpl in *.
  - injection Hb as <-. rewrite app_nil_r, <- Ht. now rewrite set_tool_calls_same.
  - unfold append_tool_use. rewrite Ht.
    destruct (tc_function tcc) as [f|]; [|discriminate].
    destruct (json_loads (fc_arguments f)) as [v|]; [|discriminate].
    destruct (blocks_of json_loads l) as [bs'|]; [|discriminate].
    injection Hb as <-.
    rewrite (IH _ (tcs ++ [mkToolUseBlock "tool_use" (tc_id tcc) (fc_name f) v])%list bs');
      [|reflexivity|reflexivity].
    rewrite <- app_assoc. destruct r; reflexivity.
Qed.

Lemma append_tool_use_raise (r : Response) (tcc : ToolCallChunk) (e : exn) :
  append_tool_use json_loads r tcc = Raise e ->
  (e = JSONDecodeError \/ e = AttributeError) /\
  (tool_calls r <> None -> tc_function tcc <> None -> e = JSONDecodeError).
Proof.
  unfold append_tool_use.
  destruct (tool_calls r) as [tcs|].
  - destruct (tc_function tcc) as [f|].
    + destruct (json_loads (fc_arguments f)); [discriminate|].
      intros E; injection E as <-. auto.
    + intros E; injection E as <-. split; [auto|congruence].
  - intros E; injection E as <-. split; [auto|congruence].
Qed.

(** An entry whose arguments do not decode stops the loop with an exception,
    at that entry or at an earlier one. *)
Lemma finalize_loop_bad (l : list ToolCallChunk) (bad : ToolCallChunk) (fn : FunctonChunk) :
  In bad l -> tc_function bad = Some fn -> json_loads (fc_arguments fn) = None ->
  forall r : Response,
    exists e,
      fst (finalize_loop json_loads l r) = Some e /\
      (e = JSONDecodeError \/ e = AttributeError) /\
      (tool_calls r <> None -> (forall t, In t l -> tc_function t <> None) ->
       e = JSONDecodeError).
Proof.
  intros Hin Hf Hj.
  induction l as [|tcc l IH]; [destruct Hin|]. intros r. simpl.
  destruct (append_tool_use json_loads r tcc) as [r'|e] eqn:E.
  - destruct Hin as [->|Hin].
    + exfalso. revert E. unfold append_tool_use.
      destruct (tool_calls r); [|discriminate]. rewrite Hf, Hj. discriminate.
    + destruct (IH Hin r') as (e & He & Hk & Hw).
      exists e. split; [exact He|]. split; [exact Hk|].
      intros Ht Hall. apply Hw.
      * apply append_tool_use_frame in E as [t ->]. simpl. congruence.
      * intros t Ht'. apply Hall. now right.
  - exists e. simpl. split; [reflexivity|].
    destruct (append_tool_use_raise r tcc e E) as [Hk Hw].
    split; [exact Hk|]. intros Ht Hall. apply Hw; [exact Ht|].
    apply Hall. now left.
Qed.

(** ** What a caller sees on the object at each pair *)

Lemma watch_yielded (rest : list item) :
  forall (it : item) (lt : string) (r : Response) (fuel : nat),
    _stream r = Some rest ->
    S (length rest) <= fuel ->
    fst (finalize json_loads (drained r (it :: rest))) = None ->
    watch json_loads fuel (Yielded lt it) r = one_behind (it :: rest).
Proof.
  induction rest as [|x rest IH]; intros it lt r fuel Hs Hf Hn.
  - destruct fuel as [|k]; simpl in Hf; try lia.
    cbn [watch _stream_generator_wrapper one_behind]. unfold for_next.
    destruct (note_tool_calls_keeps it r) as (_ & -> & _). rewrite Hs.
    unfold after_loop. rewrite (drained_last r it Hs).
    destruct (finalize_drained r [it]) as (Et & Es & _).
    destruct (finalize json_loads (drained r [it])) as [[e|] r2]; simpl in *;
      [discriminate|].
    rewrite Et, Es. destruct k; reflexivity.
  - destruct fuel as [|k]; simpl in Hf; try lia.
    cbn [watch _stream_generator_wrapper]. unfold for_next.
    destruct (note_tool_calls_keeps it r) as (_ & -> & _). rewrite Hs.
    rewrite (IH x (item_text it)); [reflexivity|reflexivity|lia|].
    now rewrite drained_step.
Qed.

Lemma watch_fresh (r : Response) (l : list item) :
  _stream r = Some l -> l <> [] -> _is_stream_exhausted r = false ->
  fst (finalize json_loads (drained r l)) = None ->
  watch json_loads (calls r) Fresh r = one_behind l.
Proof.
  intros Hs Hl Hx Hn. destruct l as [|x rest]; [congruence|].
  unfold calls. rewrite Hs.
  rewrite <- (drained_first r x rest Hs) in Hn.
  rewrite <- (watch_yielded rest x "" (set_stream r (Some rest))
                (S (length (x :: rest))) eq_refl ltac:(simpl; lia) Hn).
  cbn [watch _stream_generator_wrapper]. now rewrite Hx, Hs.
Qed.

Lemma not_last_length (l : list item) :
  l <> [] -> S (length (not_last l)) = length l.
Proof.
  intros Hl. unfold not_last. rewrite length_map.
  destruct (exists_last Hl) as (l' & a & ->).
  rewrite removelast_last, length_app. simpl. lia.
Qed.

Lemma chunk_list_after_strs (post : list item) :
  forallb is_str post = true ->
  forall init, chunk_list_after init post = init.
Proof.
  induction post as [|[s|c] post IH]; simpl; intros H init;
    [reflexivity|now apply IH|discriminate].
Qed.

Lemma chunk_list_after_last_chunk (init : option (list ToolCallChunk))
    (pre post : list item) (c : StreamChunk) :
  forallb is_str post = true ->
  chunk_list_after init (pre ++ Chunk c :: post) = sc_tool_calls c.
Proof.
  intros H. unfold chunk_list_after. rewrite fold_left_app. simpl.
  now apply chunk_list_after_strs.
Qed.

(** ** The claims *)

(** C1 (the code departs from it).  Whatever a streaming response is built
    from, iterating its incremental view to completion and then iterating it
    again raises nothing: the second loop ends at once with no pair, and the
    object is left as it was.  The guard of lines 111-115 reads a flag that
    is still [False]. *)
Theorem C1_second_iteration_is_silent
    (t : option string) (e : option Any) (u : option (list string))
    (rw p : option Any) (l : list item) (tcs : option (list (ToolUseBlock Any))) :
  exists seen out r1,
    iterate json_loads (__init__ t e u rw p (Some l) tcs) = Some (seen, out, r1) /\
    _stream r1 = Some [] /\
    iterate json_loads r1 = Some ([], None, r1).
Proof.
  set (r := __init__ t e u rw p (Some l) tcs).
  destruct l as [|x rest].
  - exists [], None, r. rewrite (iterate_empty r eq_refl eq_refl). auto.
  - rewrite (iterate_run r (x :: rest) eq_refl ltac:(discriminate) eq_refl).
    destruct (finalize_drained r (x :: rest)) as (_ & Hs & _ & Hx).
    do 3 eexists. split; [reflexivity|]. split; [exact Hs|].
    apply iterate_empty; [exact Hs|exact Hx].
Qed.

(** C4 (the code departs from it).  The flag behind [is_stream_exhausted]
    is [False] on every new response, with or without a stream; no [next] on
    the wrapper, no loop over the incremental view and no read of [text]
    changes it; so it is still [False] when the stream of a new response has
    been iterated to completion. *)
Theorem C4_flag_is_never_set
    (t : option string) (e : option Any) (u : option (list string))
    (rw p : option Any) (tcs : option (list (ToolUseBlock Any))) :
  (forall s, is_stream_exhausted (__init__ t e u rw p s tcs) = false) /\
  (forall (f : frame) (r : Response),
      is_stream_exhausted (snd (_stream_generator_wrapper json_loads f r))
      = is_stream_exhausted r) /\
  (forall (r r1 : Response) seen out,
      iterate json_loads r = Some (seen, out, r1) ->
      is_stream_exhausted r1 = is_stream_exhausted r) /\
  (forall (r r1 : Response) v,
      text json_loads r = Some (v, r1) ->
      is_stream_exhausted r1 = is_stream_exhausted r) /\
  (forall l, exists seen out r1,
      iterate json_loads (__init__ t e u rw p (Some l) tcs) = Some (seen, out, r1) /\
      _stream r1 = Some [] /\
      is_stream_exhausted r1 = false).
Proof.
  split; [reflexivity|]. split; [exact wrapper_flag|].
  split; [exact iterate_flag|]. split; [exact text_flag|].
  intros l. set (r := __init__ t e u rw p (Some l) tcs).
  destruct l as [|x rest].
  - exists [], None, r. rewrite (iterate_empty r eq_refl eq_refl). auto.
  - rewrite (iterate_run r (x :: rest) eq_refl ltac:(discriminate) eq_refl).
    destruct (finalize_drained r (x :: rest)) as (_ & Hs & _ & Hx).
    do 3 eexists. split; [reflexivity|]. split; [exact Hs|exact Hx].
Qed.

(** C2, as amended.  Once a stream of at least one item has been iterated
    to completion, the [text] property returns the text of the last item,
    not a concatenation, and leaves the object as it is; and on an untouched
    response without text, reading [text] drains the stream and settles
    [_text] to the text of the last item, which is what the read returns
    unless building the tool uses raised. *)
Theorem C2_settled_text_is_last_item (r : Response) (l : list item) :
  _stream r = Some l -> l <> [] -> _is_stream_exhausted r = false ->
  (exists seen out r1,
      iterate json_loads r = Some (seen, out, r1) /\
      text json_loads r1 = Some (Ok (Some (last_text l)), r1)) /\
  (_text r = None ->
   exists res r1,
     text json_loads r = Some (res, r1) /\
     _stream r1 = Some [] /\
     _text r1 = Some (last_text l) /\
     (res = Ok (Some (last_text l)) \/ exists e, res = Raise e)).
Proof.
  intros Hs Hl Hx.
  destruct (finalize_drained r l) as (Et & Es & _ & _).
  split.
  - rewrite (iterate_run r l Hs Hl Hx). do 3 eexists. split; [reflexivity|].
    unfold text. now rewrite Et.
  - intros Ht. rewrite (text_run r l Hs Hl Hx Ht). do 2 eexists.
    split; [reflexivity|]. split; [exact Es|]. split; [exact Et|].
    destruct (fst (finalize json_loads (drained r l))); eauto.
Qed.

(** C3, as amended.  The wrapper merges nothing: each [StreamChunk] replaces
    the chunk list by its own [tool_calls].  After the run the list is that
    of the last [StreamChunk] of the stream, and when every entry of that
    list has a function whose arguments decode, one tool use per entry is
    appended, in the order of the list, each built from that entry alone. *)
Theorem C3_chunk_list_is_replaced (r : Response) (pre post : list item)
    (c : StreamChunk) :
  _stream r = Some (pre ++ Chunk c :: post)%list ->
  forallb is_str post = true ->
  _is_stream_exhausted r = false ->
  exists seen out r1,
    iterate json_loads r = Some (seen, out, r1) /\
    tool_call_chunk_list r1 = sc_tool_calls c /\
    (forall tcs frs bs,
        tool_calls r = Some tcs ->
        sc_tool_calls c = Some frs ->
        blocks_of json_loads frs = Some bs ->
        out = None /\ tool_calls r1 = Some (tcs ++ bs)%list).
Proof.
  intros Hs Hp Hx.
  set (l := (pre ++ Chunk c :: post)%list) in *.
  assert (Hl : l <> []) by (subst l; destruct pre; discriminate).
  assert (Hc : chunk_list_after (tool_call_chunk_list r) l = sc_tool_calls c)
    by (now apply chunk_list_after_last_chunk).
  rewrite (iterate_run r l Hs Hl Hx). do 3 eexists. split; [reflexivity|].
  destruct (finalize_drained r l) as (_ & _ & Ec & _).
  split; [now rewrite Ec|].
  intros tcs frs bs Ht Hf Hb.
  rewrite (finalize_some (drained r l) frs) by (simpl; congruence).
  rewrite (finalize_loop_ok frs (drained r l) tcs bs Ht Hb). auto.
Qed.

(** C5, as amended.  Over a stream of n >= 1 items the loop yields the
    pairs [(False, d1) .. (False, d(n-1))]; when building the tool uses
    raises nothing (as when the chunk list held at exhaustion is empty or
    absent) the pair [(True, dn)] follows, n pairs in all, each one seen with
    [_text] already equal to its text and with the source one item further
    on; when it raises, the exception takes the place of the last pair. *)
Theorem C5_pairs_run_one_behind (r : Response) (l : list item) :
  _stream r = Some l -> l <> [] -> _is_stream_exhausted r = false ->
  let out := fst (finalize json_loads (drained r l)) in
  (exists r1, iterate json_loads r = Some (pairs l out, out, r1)) /\
  (truthy (chunk_list_after (tool_call_chunk_list r) l) = false -> out = None) /\
  (out = None ->
   pairs l out = (not_last l ++ [(true, last_text l)])%list /\
   length (pairs l out) = length l /\
   watch json_loads (calls r) Fresh r = one_behind l) /\
  (out <> None ->
   pairs l out = not_last l /\ S (length (pairs l out)) = length l).
Proof.
  intros Hs Hl Hx out.
  split; [rewrite (iterate_run r l Hs Hl Hx); eauto|].
  split; [intros Hf; subst out; now rewrite finalize_falsy|].
  split.
  - intros Hn. pose proof (watch_fresh r l Hs Hl Hx Hn) as W.
    rewrite Hn. unfold pairs. simpl. split; [reflexivity|]. split; [|exact W].
    rewrite length_app. simpl. rewrite <- (not_last_length l Hl). lia.
  - intros Hn. destruct out as [e|]; [|congruence].
    unfold pairs. simpl. rewrite app_nil_r. split; [reflexivity|].
    now apply not_last_length.
Qed.

(** An entry of the chunk list whose arguments do not decode always ends
    the run with an exception, here or at an earlier entry: the decode error
    when [tool_calls] is a list and every entry has a function, and
    otherwise possibly an [AttributeError]. *)
Lemma undecodable_entry_raises (r : Response) (l : list item)
    (acc : list ToolCallChunk) (bad : ToolCallChunk) (fn : FunctonChunk) :
  _stream r = Some l -> l <> [] -> _is_stream_exhausted r = false ->
  chunk_list_after (tool_call_chunk_list r) l = Some acc ->
  In bad acc -> tc_function bad = Some fn -> json_loads (fc_arguments fn) = None ->
  exists e r1,
    iterate json_loads r = Some (not_last l, Some e, r1) /\
    (_text r = None -> text json_loads r = Some (Raise e, r1)) /\
    (e = JSONDecodeError \/ e = AttributeError) /\
    (tool_calls r <> None -> (forall tc, In tc acc -> tc_function tc <> None) ->
     e = JSONDecodeError).
Proof.
  intros Hs Hl Hx Ha Hin Hf Hj.
  destruct (finalize_loop_bad acc bad fn Hin Hf Hj (drained r l))
    as (e & He & Hk & Hw).
  rewrite <- (finalize_some (drained r l) acc Ha) in He.
  exists e, (snd (finalize json_loads (drained r l))).
  split; [|split; [|split; [exact Hk|exact Hw]]].
  - rewrite (iterate_run r l Hs Hl Hx), He. unfold pairs. simpl.
    now rewrite app_nil_r.
  - intros Ht. now rewrite (text_run r l Hs Hl Hx Ht), He.
Qed.

Lemma text_pulls_drained (r : Response) :
  _stream r = Some [] -> _is_stream_exhausted r = false ->
  text_pulls json_loads r = match _text r with Some _ => 0 | None => 1 end.
Proof.
  intros Hs Hx. unfold text_pulls, stream, calls. rewrite Hs.
  destruct (_text r); [reflexivity|].
  simpl. now rewrite Hx, Hs.
Qed.

(** C7, as amended.  Once the stream of a response has been drained, by a
    loop over the incremental view or by a read of [text] that found no
    text, a read of [text] returns the settled [_text] and leaves the object
    as it is, so a second read returns the same value.  Such a read makes no
    call on the source when a text is settled, which is the case whenever
    the stream had an item; on a drained stream that had no item and no
    text, [_text] is still [None] and every read makes one more call of
    [next] on the finished source. *)
Theorem C7_text_read_twice_pulls (r : Response) (l : list item) :
  _stream r = Some l -> _is_stream_exhausted r = false ->
  exists seen out r1,
    iterate json_loads r = Some (seen, out, r1) /\
    (_text r = None -> exists res, text json_loads r = Some (res, r1)) /\
    _stream r1 = Some [] /\
    text json_loads r1 = Some (Ok (_text r1), r1) /\
    text_pulls json_loads r1 = match _text r1 with Some _ => 0 | None => 1 end /\
    (l <> [] -> _text r1 = Some (last_text l) /\ text_pulls json_loads r1 = 0) /\
    (l = [] -> r1 = r).
Proof.
  intros Hs Hx. destruct l as [|x rest].
  - exists [], None, r. rewrite (iterate_empty r Hs Hx).
    split; [reflexivity|]. split; [intros _; rewrite (text_empty r Hs Hx); eauto|].
    split; [exact Hs|]. split; [exact (text_empty r Hs Hx)|].
    split; [exact (text_pulls_drained r Hs Hx)|]. split; [congruence|reflexivity].
  - rewrite (iterate_run r (x :: rest) Hs ltac:(discriminate) Hx).
    destruct (finalize_drained r (x :: rest)) as (Et & Es & _ & Ex).
    rewrite Hx in Ex.
    do 3 eexists. split; [reflexivity|].
    split; [intros Ht; rewrite (text_run r (x :: rest) Hs ltac:(discriminate) Hx Ht);
            eauto|].
    split; [exact Es|]. split; [exact (text_empty _ Es Ex)|].
    split; [exact (text_pulls_drained _ Es Ex)|]. split; [|discriminate].
    intros _. split; [exact Et|].
    rewrite (text_pulls_drained _ Es Ex). now rewrite Et.
Qed.

(** C8.  On a response whose source has no item, the loop over the
    incremental view yields no pair and raises nothing, a read of [text]
    returns the text the response already had ([None] if it had none), and
    both leave the object as it was. *)
Theorem C8_empty_stream (r : Response) :
  _stream r = Some [] -> _is_stream_exhausted r = false ->
  iterate json_loads r = Some ([], None, r) /\
  text json_loads r = Some (Ok (_text r), r).
Proof.
  intros Hs Hx. split; [now apply iterate_empty|now apply text_empty].
Qed.

(** C10.  [__init__] with a stream and no tool calls sets [tool_calls] to
    the empty list; without a stream and without tool calls it leaves
    [tool_calls] at [None]. *)
Theorem C10_init_tool_calls
    (t : option string) (e : option Any) (u : option (list string))
    (rw p : option Any) (s : list item) :
  tool_calls (__init__ t e u rw p (Some s) None) = Some [] /\
  tool_calls (__init__ t e u rw p None None) = None.
Proof. split; reflexivity. Qed.

(** ** Further properties of the wrapper and its consumers *)

Lemma after_loop_payload (t : string) (r : Response) :
  payload (snd (after_loop json_loads t r)) = payload r.
Proof.
  unfold after_loop.
  destruct (finalize_frame (set_text r (Some t))) as [x E].
  destruct (finalize json_loads (set_text r (Some t))) as [[e|] r2];
    simpl in *; subst r2; destruct r; reflexivity.
Qed.

Lemma for_next_payload (t : string) (r : Response) :
  payload (snd (for_next json_loads t r)) = payload r.
Proof.
  unfold for_next.
  destruct (_stream r) as [[|it rest]|]; try apply after_loop_payload.
  destruct r; reflexivity.
Qed.

Lemma wrapper_payload (f : frame) (r : Response) :
  payload (snd (_stream_generator_wrapper json_loads f r)) = payload r.
Proof.
  destruct f as [|lt it|lt|]; simpl; try reflexivity.
  - destruct (_is_stream_exhausted r); [reflexivity|].
    destruct (_stream r) as [[|x rest]|]; try reflexivity.
    rewrite for_next_payload. destruct x, r; reflexivity.
  - rewrite for_next_payload. destruct it, r; reflexivity.
Qed.

Lemma for_each_payload (fuel : nat) :
  forall (f : frame) (r r1 : Response) seen out,
    for_each json_loads fuel idle f r = Some (seen, out, r1) ->
    payload r1 = payload r.
Proof.
  induction fuel as [|k IH]; intros f r r1 seen out; simpl; [discriminate|].
  pose proof (wrapper_payload f r) as W.
  destruct (_stream_generator_wrapper json_loads f r) as [[[b t| |e] f'] r'];
    simpl in W.
  - destruct (for_each json_loads k idle f' r') as [[[seen' out'] r'']|] eqn:E;
      [|discriminate].
    intros H; injection H as _ _ <-. rewrite <- W. exact (IH _ _ _ _ _ E).
  - intros H; injection H as _ _ <-. exact W.
  - intros H; injection H as _ _ <-. exact W.
Qed.

Lemma iterate_payload (r r1 : Response) seen out :
  iterate json_loads r = Some (seen, out, r1) -> payload r1 = payload r.
Proof.
  unfold iterate. destruct (stream r) as [g|].
  - apply for_each_payload.
  - intros H; now injection H as _ _ <-.
Qed.

Lemma text_payload (r r1 : Response) v :
  text json_loads r = Some (v, r1) -> payload r1 = payload r.
Proof.
  unfold text. destruct (_text r) as [t|].
  - intros H; now injection H as _ <-.
  - destruct (stream r) as [g|].
    + rewrite for_each_settle.
      destruct (for_each json_loads (calls r) idle g r) as [[[seen [e|]] r']|] eqn:E;
        try discriminate; intros H; injection H as _ <-;
        exact (for_each_payload _ _ _ _ _ _ E).
    + intros H; now injection H as _ <-.
Qed.

(** The loop of lines 143-151 stopped by the entry [bad]: the tool uses of
    the entries before it stay appended. *)
Lemma finalize_loop_stops (good : list ToolCallChunk) :
  forall (r : Response) (tcs bs : list (ToolUseBlock Any)) (bad : ToolCallChunk)
         (rest : list ToolCallChunk) (e : exn),
    tool_calls r = Some tcs ->
    blocks_of json_loads good = Some bs ->
    (tc_function bad = None /\ e = AttributeError \/
     exists fn, tc_function bad = Some fn /\
                json_loads (fc_arguments fn) = None /\ e = JSONDecodeError) ->
    finalize_loop json_loads (good ++ bad :: rest) r
    = (Some e, set_tool_calls r (Some (tcs ++ bs)%list)).
Proof.
  induction good as [|tcc good IH]; intros r tcs bs bad rest e Ht Hb Hbad;
    simpl in *.
  - injection Hb as <-. rewrite app_nil_r, <- Ht, set_tool_calls_same.
    unfold append_tool_use. rewrite Ht.
    destruct Hbad as [[-> ->]|(fn & -> & -> & ->)]; reflexivity.
  - unfold append_tool_use. rewrite Ht.
    destruct (tc_function tcc) as [f|]; [|discriminate].
    destruct (json_loads (fc_arguments f)) as [v|]; [|discriminate].
    destruct (blocks_of json_loads good) as [bs'|]; [|discriminate].
    injection Hb as <-.
    rewrite (IH _ (tcs ++ [mkToolUseBlock "tool_use" (tc_id tcc) (fc_name f) v])%list
               bs' bad rest e); [|reflexivity|reflexivity|exact Hbad].
    rewrite <- app_assoc. destruct r; reflexivity.
Qed.

(** The loop of lines 143-151 when it raised nothing. *)
Lemma finalize_loop_none (acc : list ToolCallChunk) :
  forall (r r' : Response) (tcs : list (ToolUseBlock Any)),
    tool_calls r = Some tcs ->
    finalize_loop json_loads acc r = (None, r') ->
    exists bs, blocks_of json_loads acc = Some bs /\
               r' = set_tool_calls r (Some (tcs ++ bs)%list).
Proof.
  induction acc as [|tcc acc IH]; intros r r' tcs Ht; simpl.
  - intros H; injection H as <-. exists []. split; [reflexivity|].
    now rewrite app_nil_r, <- Ht, set_tool_calls_same.
  - unfold append_tool_use. rewrite Ht.
    destruct (tc_function tcc) as [f|]; [|discriminate].
    destruct (json_loads (fc_arguments f)) as [v|]; [|discriminate].
    intros H.
    destruct (IH (set_tool_calls r
                    (Some (tcs ++ [mkToolUseBlock "tool_use" (tc_id tcc) (fc_name f) v])%list))
                r' (tcs ++ [mkToolUseBlock "tool_use" (tc_id tcc) (fc_name f) v])%list
                eq_refl H) as (bs & -> & ->).
    eexists. split; [reflexivity|].
    rewrite <- app_assoc. destruct r; reflexivity.
Qed.

Lemma blocks_of_shape (acc : list ToolCallChunk) :
  forall bs : list (ToolUseBlock Any),
    blocks_of json_loads acc = Some bs ->
    map (@tu_id Any) bs = map tc_id acc /\
    map (fun b => Some (tu_name Any b)) bs
    = map (fun tc => option_map fc_name (tc_function tc)) acc /\
    map (fun b => Some (tu_input Any b)) bs
    = map (fun tc => match tc_function tc with
                     | Some f => json_loads (fc_arguments f)
                     | None => None
                     end) acc /\
    Forall (fun b => tu_type Any b = "tool_use") bs.
Proof.
  induction acc as [|tcc acc IH]; intros bs; simpl.
  - intros H; injection H as <-. simpl. auto.
  - destruct (tc_function tcc) as [f|] eqn:Ef; [|discriminate].
    destruct (json_loads (fc_arguments f)) as [v|] eqn:Ev; [|discriminate].
    destruct (blocks_of json_loads acc) as [bs'|]; [|discriminate].
    intros H; injection H as <-.
    destruct (IH bs' eq_refl) as (H1 & H2 & H3 & H4).
    simpl. rewrite H1, H2, H3. auto.
Qed.

(** C6, as amended.  The wrapper holds the [tool_calls] of the last
    [StreamChunk] only.  If, when the source is exhausted, that list has an
    entry whose arguments do not decode, [tool_calls] is a list, and every
    entry before it has a function whose arguments decode, so that the loop
    of lines 143-151 reaches it, then the decode error is raised to the
    caller in place of the last pair, by the loop over the incremental view
    and by a read of [text] that drains the stream; the tool uses of the
    entries before it stay appended and none is appended for it. *)
Theorem C6_decode_error_when_reached (r : Response) (pre post : list item)
    (c : StreamChunk) (good rest : list ToolCallChunk) (bad : ToolCallChunk)
    (fn : FunctonChunk) (tcs bs : list (ToolUseBlock Any)) :
  _stream r = Some (pre ++ Chunk c :: post)%list ->
  forallb is_str post = true ->
  _is_stream_exhausted r = false ->
  tool_calls r = Some tcs ->
  sc_tool_calls c = Some (good ++ bad :: rest)%list ->
  blocks_of json_loads good = Some bs ->
  tc_function bad = Some fn ->
  json_loads (fc_arguments fn) = None ->
  exists r1,
    iterate json_loads r
    = Some (not_last (pre ++ Chunk c :: post), Some JSONDecodeError, r1) /\
    (_text r = None -> text json_loads r = Some (Raise JSONDecodeError, r1)) /\
    tool_calls r1 = Some (tcs ++ bs)%list /\
    tool_call_chunk_list r1 = Some (good ++ bad :: rest)%list.
Proof.
  intros Hs Hp Hx Ht Hc Hb Hf Hj.
  set (l := (pre ++ Chunk c :: post)%list) in *.
  assert (Hl : l <> []) by (subst l; destruct pre; discriminate).
  assert (Ha : chunk_list_after (tool_call_chunk_list r) l
               = Some (good ++ bad :: rest)%list)
    by (unfold l; rewrite chunk_list_after_last_chunk; assumption).
  assert (F : finalize json_loads (drained r l)
              = (Some JSONDecodeError,
                 set_tool_calls (drained r l) (Some (tcs ++ bs)%list))).
  { rewrite (finalize_some (drained r l) _ Ha).
    apply finalize_loop_stops; [exact Ht|exact Hb|].
    right. exists fn. auto. }
  exists (set_tool_calls (drained r l) (Some (tcs ++ bs)%list)).
  split; [|split; [|split]].
  - rewrite (iterate_run r l Hs Hl Hx), F. unfold pairs. simpl.
    now rewrite app_nil_r.
  - intros Hn. now rewrite (text_run r l Hs Hl Hx Hn), F.
  - reflexivity.
  - exact Ha.
Qed.

(** X1.  Whenever a [next] on the wrapper yields a pair, a read of [text]
    at that moment returns the text of that pair and touches nothing: the
    rest of the stream is not drained by it. *)
Theorem X1_text_inside_the_loop (f f' : frame) (r r' : Response)
    (b : bool) (t : string) :
  _stream_generator_wrapper json_loads f r = (Yield b t, f', r') ->
  text json_loads r' = Some (Ok (Some t), r').
Proof.
  intros H. unfold text. now rewrite (wrapper_yield_text _ _ _ _ _ _ H).
Qed.

(** X2.  A text written by the setter is returned by [text] with the stream
    left untouched, however many items it holds; but a loop over the
    incremental view afterwards yields the same pairs as without the setter
    and overwrites the text with that of the last item. *)
Theorem X2_text_setter_then_loop (r : Response) (l : list item) (v : string) :
  _stream r = Some l -> l <> [] -> _is_stream_exhausted r = false ->
  text json_loads (text_setter r v) = Some (Ok (Some v), text_setter r v) /\
  _stream (text_setter r v) = Some l /\
  exists out r1 r2,
    iterate json_loads r = Some (pairs l out, out, r1) /\
    iterate json_loads (text_setter r v) = Some (pairs l out, out, r2) /\
    _text r2 = Some (last_text l).
Proof.
  intros Hs Hl Hx. split; [reflexivity|]. split; [exact Hs|].
  rewrite (iterate_run r l Hs Hl Hx).
  rewrite (iterate_run (text_setter r v) l Hs Hl Hx).
  assert (E : drained (text_setter r v) l = drained r l) by (destruct r; reflexivity).
  rewrite E. do 3 eexists. split; [reflexivity|]. split; [reflexivity|].
  apply finalize_drained.
Qed.

(** X3.  On a response with a stream and no text, a read of [text] does
    what a loop over the incremental view does, ends with the same exception
    if there is one, leaves the same object, and otherwise returns the
    [_text] that the loop left. *)
Theorem X3_text_is_iterate_then_read (r : Response) :
  _text r = None -> _stream r <> None ->
  exists seen out r1,
    iterate json_loads r = Some (seen, out, r1) /\
    text json_loads r
    = Some (match out with
            | None => Ok (_text r1)
            | Some e => Raise e
            end, r1).
Proof.
  intros Ht Hs. destruct (iterate_total r) as (seen & out & r1 & H).
  exists seen, out, r1. split; [exact H|].
  unfold text, iterate, stream in *. rewrite Ht.
  destruct (_stream r) as [l|]; [|congruence].
  rewrite for_each_settle, H. now destruct out.
Qed.

(** X4.  When the loop of lines 143-151 is stopped by an entry without a
    function ([AttributeError]) or with arguments that do not decode
    ([JSONDecodeError]), the tool uses of the entries before it stay in
    [tool_calls]: nothing is rolled back, the entries after it are never
    looked at, and [_text] has already been settled. *)
Theorem X4_tool_uses_before_a_failure_stay (r : Response) (l : list item)
    (good rest : list ToolCallChunk) (bad : ToolCallChunk)
    (tcs bs : list (ToolUseBlock Any)) (e : exn) :
  _stream r = Some l -> l <> [] -> _is_stream_exhausted r = false ->
  tool_calls r = Some tcs ->
  chunk_list_after (tool_call_chunk_list r) l = Some (good ++ bad :: rest)%list ->
  blocks_of json_loads good = Some bs ->
  (tc_function bad = None /\ e = AttributeError \/
   exists fn, tc_function bad = Some fn /\
              json_loads (fc_arguments fn) = None /\ e = JSONDecodeError) ->
  exists r1,
    iterate json_loads r = Some (not_last l, Some e, r1) /\
    tool_calls r1 = Some (tcs ++ bs)%list /\
    _text r1 = Some (last_text l).
Proof.
  intros Hs Hl Hx Ht Ha Hb Hbad.
  rewrite (iterate_run r l Hs Hl Hx).
  rewrite (finalize_some (drained r l) _ Ha).
  rewrite (finalize_loop_stops good (drained r l) tcs bs bad rest e Ht Hb Hbad).
  eexists. unfold pairs. simpl. rewrite app_nil_r. auto.
Qed.

(** X6.  A [StreamChunk] whose [tool_calls] is [None] or empty wipes the
    chunk list: when it is the last [StreamChunk] of the stream, the run
    raises nothing, yields every pair, and appends no tool use, whatever the
    chunks before it carried. *)
Theorem X6_chunk_without_tool_calls_erases (r : Response) (pre post : list item)
    (c : StreamChunk) :
  _stream r = Some (pre ++ Chunk c :: post)%list ->
  forallb is_str post = true ->
  _is_stream_exhausted r = false ->
  truthy (sc_tool_calls c) = false ->
  exists r1,
    iterate json_loads r
    = Some (pairs (pre ++ Chunk c :: post) None, None, r1) /\
    tool_calls r1 = tool_calls r /\
    tool_call_chunk_list r1 = sc_tool_calls c.
Proof.
  intros Hs Hp Hx Hc.
  set (l := (pre ++ Chunk c :: post)%list) in *.
  assert (Hl : l <> []) by (subst l; destruct pre; discriminate).
  rewrite (iterate_run r l Hs Hl Hx).
  rewrite finalize_falsy
    by (simpl; unfold l; now rewrite chunk_list_after_last_chunk).
  eexists. split; [reflexivity|]. simpl. split; [reflexivity|].
  unfold l. now apply chunk_list_after_last_chunk.
Qed.

(** X7.  On a new response, a stream of plain [str] items never raises:
    the loop yields one pair per item, [tool_calls] stays as [__init__] left
    it and the chunk list stays [None]. *)
Theorem X7_text_only_stream
    (t : option string) (e : option Any) (u : option (list string))
    (rw p : option Any) (l : list item) (tcs : option (list (ToolUseBlock Any))) :
  forallb is_str l = true -> l <> [] ->
  exists r1,
    iterate json_loads (__init__ t e u rw p (Some l) tcs)
    = Some (pairs l None, None, r1) /\
    length (pairs l None) = length l /\
    tool_calls r1 = tool_calls (__init__ t e u rw p (Some l) tcs) /\
    tool_call_chunk_list r1 = None.
Proof.
  intros Hb Hl. set (r := __init__ t e u rw p (Some l) tcs).
  assert (Hc : chunk_list_after (tool_call_chunk_list r) l = None)
    by (now apply chunk_list_after_strs).
  assert (Hf : truthy (tool_call_chunk_list (drained r l)) = false)
    by (unfold drained; cbn [tool_call_chunk_list]; now rewrite Hc).
  rewrite (iterate_run r l eq_refl Hl eq_refl).
  rewrite (finalize_falsy _ Hf).
  eexists. split; [reflexivity|]. split.
  - unfold pairs. cbn [fst closing]. rewrite length_app. cbn [length].
    rewrite <- (not_last_length l Hl). lia.
  - cbn [snd]. split; [reflexivity|exact Hc].
Qed.

(** X8.  A wrapper abandoned after its first pair has already pulled the
    second item out of the source.  A read of [text] then returns the first
    item's text without draining, and a new loop over the incremental view
    runs over the items after the second one only: the second item is never
    yielded. *)
Theorem X8_abandoned_wrapper_loses_an_item (r : Response) (a b : item)
    (rest : list item) :
  _stream r = Some (a :: b :: rest) -> _is_stream_exhausted r = false ->
  exists r1,
    _stream_generator_wrapper json_loads Fresh r
    = (Yield false (item_text a), Yielded (item_text a) b, r1) /\
    _stream r1 = Some rest /\
    text json_loads r1 = Some (Ok (Some (item_text a)), r1) /\
    exists seen out r2,
      iterate json_loads r1 = Some (seen, out, r2) /\
      length seen <= length rest /\
      (rest <> [] -> seen = pairs rest out).
Proof.
  intros Hs Hx. simpl. rewrite Hx, Hs. unfold for_next.
  destruct (note_tool_calls_keeps a (set_stream r (Some (b :: rest))))
    as (_ & Es & _ & Ex).
  rewrite Es. simpl.
  eexists. split; [reflexivity|]. split; [reflexivity|]. split; [reflexivity|].
  set (r1 := set_text _ _).
  assert (Hs1 : _stream r1 = Some rest) by reflexivity.
  assert (Hx1 : _is_stream_exhausted r1 = false)
    by (subst r1; simpl; rewrite Ex; exact Hx).
  destruct rest as [|c rest'].
  - rewrite (iterate_empty r1 Hs1 Hx1). do 3 eexists.
    split; [reflexivity|]. split; [simpl; lia|congruence].
  - rewrite (iterate_run r1 (c :: rest') Hs1 ltac:(discriminate) Hx1).
    do 3 eexists. split; [reflexivity|]. split; [|reflexivity].
    unfold pairs. rewrite length_app.
    pose proof (not_last_length (c :: rest') ltac:(discriminate)) as N.
    destruct (fst (finalize json_loads (drained r1 (c :: rest')))); simpl in *; lia.
Qed.

(** X9.  The loop of lines 143-151 reads the [id] and the [function] of an
    entry and nothing else: two chunk lists that agree on these, whatever
    their [index] and [type] fields, give the same exception and the same
    [tool_calls]. *)
Theorem X9_index_and_type_are_ignored (acc : list ToolCallChunk) :
  forall (acc' : list ToolCallChunk) (r : Response),
    map tc_id acc = map tc_id acc' ->
    map tc_function acc = map tc_function acc' ->
    finalize_loop json_loads acc r = finalize_loop json_loads acc' r.
Proof.
  induction acc as [|a acc IH]; intros [|a' acc'] r Hi Hf;
    try discriminate; [reflexivity|].
  simpl in *. injection Hi as Hi1 Hi2. injection Hf as Hf1 Hf2.
  assert (E : append_tool_use json_loads r a = append_tool_use json_loads r a')
    by (unfold append_tool_use; now rewrite Hi1, Hf1).
  rewrite E. destruct (append_tool_use json_loads r a'); [|reflexivity].
  now apply IH.
Qed.

(** X10.  An exception raised while the tool uses were built is raised
    once.  The source is empty afterwards, so a read of [text] returns the
    last item's text without raising, and a new loop over the incremental
    view ends at once: the entries that were not turned into tool uses are
    never tried again. *)
Theorem X10_failed_drain_is_not_retried (r r1 : Response) (l : list item)
    (seen : list (bool * string)) (e : exn) :
  _stream r = Some l -> l <> [] -> _is_stream_exhausted r = false ->
  iterate json_loads r = Some (seen, Some e, r1) ->
  text json_loads r1 = Some (Ok (Some (last_text l)), r1) /\
  iterate json_loads r1 = Some ([], None, r1).
Proof.
  intros Hs Hl Hx H. rewrite (iterate_run r l Hs Hl Hx) in H.
  injection H as _ _ <-.
  destruct (finalize_drained r l) as (Et & Es & _ & Ex).
  split.
  - unfold text. now rewrite Et.
  - apply iterate_empty; [exact Es|now rewrite Ex].
Qed.

(** X12.  When the run raises nothing, exactly one tool use per entry of the
    chunk list held at exhaustion has been appended to [tool_calls], in the
    order of the list: it has the entry's [id], the name of its function,
    the decoded arguments of that function, and the type ["tool_use"]
    whatever the entry's own [type]. *)
Theorem X12_one_tool_use_per_entry (r r1 : Response) (l : list item)
    (acc : list ToolCallChunk) (tcs : list (ToolUseBlock Any))
    (seen : list (bool * string)) :
  _stream r = Some l -> l <> [] -> _is_stream_exhausted r = false ->
  tool_calls r = Some tcs ->
  chunk_list_after (tool_call_chunk_list r) l = Some acc ->
  iterate json_loads r = Some (seen, None, r1) ->
  exists bs,
    tool_calls r1 = Some (tcs ++ bs)%list /\
    map (@tu_id Any) bs = map tc_id acc /\
    map (fun b => Some (tu_name Any b)) bs
    = map (fun tc => option_map fc_name (tc_function tc)) acc /\
    map (fun b => Some (tu_input Any b)) bs
    = map (fun tc => match tc_function tc with
                     | Some f => json_loads (fc_arguments f)
                     | None => None
                     end) acc /\
    Forall (fun b => tu_type Any b = "tool_use") bs.
Proof.
  intros Hs Hl Hx Ht Ha H. rewrite (iterate_run r l Hs Hl Hx) in H.
  rewrite (finalize_some (drained r l) acc Ha) in H.
  destruct (finalize_loop json_loads acc (drained r l)) as [out r'] eqn:E.
  simpl in H. injection H as _ -> <-.
  destruct (finalize_loop_none acc (drained r l) r' tcs Ht E) as (bs & Hb & ->).
  exists bs. split; [reflexivity|]. now apply blocks_of_shape.
Qed.

(** X14.  The flag of a pair tells the truth about what follows.  After a
    pair marked [True] the source has nothing left and the next [next] ends
    the loop; after a pair marked [False] an item is already waiting, so
    the next [next] yields another pair or raises, and never ends the loop
    in silence. *)
Theorem X14_is_last_flag (f f' : frame) (r r' : Response) (b : bool) (t : string) :
  _stream_generator_wrapper json_loads f r = (Yield b t, f', r') ->
  (b = true ->
   (_stream r' = Some [] \/ _stream r' = None) /\
   _stream_generator_wrapper json_loads f' r' = (StopIteration, Closed, r')) /\
  (b = false ->
   (exists it, f' = Yielded t it) /\
   fst (fst (_stream_generator_wrapper json_loads f' r')) <> StopIteration).
Proof.
  assert (A : forall lt (q : Response) g q',
             (_stream q = Some [] \/ _stream q = None) ->
             after_loop json_loads lt q = (Yield b t, g, q') ->
             b = true /\ g = Final t /\ (_stream q' = Some [] \/ _stream q' = None)).
  { intros lt q g q' Hq. unfold after_loop.
    pose proof (finalize_keeps (set_text q (Some lt))) as K. simpl in K.
    destruct (finalize json_loads (set_text q (Some lt))) as [[e|] r2]; simpl in *;
      [discriminate|].
    intros E; injection E as <- <- <- <-.
    destruct K as (_ & -> & _). auto. }
  assert (L : forall lt (q : Response),
             fst (fst (after_loop json_loads lt q)) <> StopIteration).
  { intros lt q. unfold after_loop.
    destruct (finalize json_loads (set_text q (Some lt))) as [[e|] r2];
      simpl; discriminate. }
  assert (N : forall lt (q : Response) g q',
             for_next json_loads lt q = (Yield b t, g, q') ->
             (b = true -> g = Final t /\ (_stream q' = Some [] \/ _stream q' = None)) /\
             (b = false -> exists it, g = Yielded t it)).
  { intros lt q g q'. unfold for_next.
    destruct (_stream q) as [[|it rest]|] eqn:Hq.
    - intros E. destruct (A lt q g q' (or_introl Hq) E) as (-> & Hg & Hs).
      split; [auto|discriminate].
    - intros E; injection E as <- <- <- <-. split; [discriminate|eauto].
    - intros E. destruct (A lt q g q' (or_intror Hq) E) as (-> & Hg & Hs).
      split; [auto|discriminate]. }
  assert (M : forall lt (q : Response),
             fst (fst (for_next json_loads lt q)) <> StopIteration).
  { intros lt q. unfold for_next.
    destruct (_stream q) as [[|it rest]|]; try apply L. simpl. discriminate. }
  intros H.
  assert (C : (b = true -> f' = Final t /\ (_stream r' = Some [] \/ _stream r' = None)) /\
              (b = false -> exists it, f' = Yielded t it)).
  { destruct f as [|lt it|lt|]; simpl in H; try discriminate.
    - destruct (_is_stream_exhausted r); [discriminate|].
      destruct (_stream r) as [[|x rest]|]; try discriminate.
      exact (N _ _ _ _ H).
    - exact (N _ _ _ _ H). }
  destruct C as [Ct Cf]. split.
  - intros Hb. destruct (Ct Hb) as [-> Hs]. auto.
  - intros Hb. destruct (Cf Hb) as [it ->]. split; [eauto|]. simpl. apply M.
Qed.

Section Diagnostics.

Variable _is_json_serializable : option Any -> bool.
Variable str : option Any -> string.
Variable json_dumps : serialized_fields Any -> result string.

Lemma str_drains (r : Response) (l : list item) :
  _stream r = Some l -> _text r = None -> _is_stream_exhausted r = false ->
  exists seen out r1,
    iterate json_loads r = Some (seen, out, r1) /\
    text json_loads r
    = Some (match out with
            | None => Ok (_text r1)
            | Some e => Raise e
            end, r1) /\
    __str__ json_loads _is_json_serializable str json_dumps r
    = Some (match out with
            | None =>
                json_dumps
                  (mkSerializedFields (_text r1) (embedding r) (image_urls r)
                     (parsed r)
                     (if _is_json_serializable (raw r) then inl (raw r)
                      else inr (str (raw r))))
            | Some e => Raise e
            end, r1) /\
    _stream r1 = Some [] /\
    iterate json_loads r1 = Some ([], None, r1) /\
    (l = [] -> r1 = r) /\
    (l <> [] ->
     seen = pairs l out /\
     r1 = snd (finalize json_loads (drained r l)) /\
     _text r1 = Some (last_text l) /\
     tool_call_chunk_list r1 = chunk_list_after (tool_call_chunk_list r) l).
Proof.
  intros Hs Ht Hx. unfold __str__.
  destruct l as [|x rest].
  - exists [], None, r.
    rewrite (iterate_empty r Hs Hx), (text_empty r Hs Hx), Ht.
    split; [reflexivity|]. split; [reflexivity|]. split; [reflexivity|].
    split; [exact Hs|]. split; [reflexivity|]. split; [reflexivity|].
    intros H. now contradiction H.
  - rewrite (iterate_run r (x :: rest) Hs ltac:(discriminate) Hx).
    rewrite (text_run r (x :: rest) Hs ltac:(discriminate) Hx Ht).
    destruct (finalize_drained r (x :: rest)) as (Et & Es & Ec & Ex).
    rewrite Hx in Ex.
    pose proof (text_payload _ _ _ (text_run r (x :: rest) Hs ltac:(discriminate) Hx Ht))
      as P.
    unfold payload in P. injection P as P1 P2 P3 P4.
    do 3 eexists. split; [reflexivity|].
    split; [destruct (fst (finalize json_loads (drained r (x :: rest))));
            [reflexivity|now rewrite Et]|].
    split; [destruct (fst (finalize json_loads (drained r (x :: rest))));
            [reflexivity|now rewrite Et, P1, P2, P4]|].
    split; [exact Es|]. split; [now apply iterate_empty|].
    split; [discriminate|]. intros _. auto.
Qed.

(** C9.  On a response built with a stream and no text, [__str__] reads
    [text], and that read drains the stream: the object [__str__] leaves is
    the one a loop over the whole incremental view leaves, with [_text]
    settled to the last item's text, the chunk list noted and the tool uses
    built; an exception of the read leaves [__str__] as it is, and otherwise
    [json.dumps] is handed the settled text.  The source is then empty, and
    a loop over the incremental view afterwards ends at once with no
    pair. *)
Theorem C9_str_drains_by_reading_text
    (e : option Any) (u : option (list string)) (rw p : option Any)
    (l : list item) (tcs : option (list (ToolUseBlock Any))) :
  exists seen out r1,
    iterate json_loads (__init__ None e u rw p (Some l) tcs) = Some (seen, out, r1) /\
    text json_loads (__init__ None e u rw p (Some l) tcs)
    = Some (match out with
            | None => Ok (_text r1)
            | Some x => Raise x
            end, r1) /\
    __str__ json_loads _is_json_serializable str json_dumps
      (__init__ None e u rw p (Some l) tcs)
    = Some (match out with
            | None =>
                json_dumps
                  (mkSerializedFields (_text r1) e u p
                     (if _is_json_serializable rw then inl rw else inr (str rw)))
            | Some x => Raise x
            end, r1) /\
    _stream r1 = Some [] /\
    iterate json_loads r1 = Some ([], None, r1) /\
    (l = [] -> r1 = __init__ None e u rw p (Some l) tcs) /\
    (l <> [] ->
     seen = pairs l out /\
     r1 = snd (finalize json_loads (drained (__init__ None e u rw p (Some l) tcs) l)) /\
     _text r1 = Some (last_text l) /\
     tool_call_chunk_list r1 = chunk_list_after None l).
Proof.
  exact (str_drains (__init__ None e u rw p (Some l) tcs) l eq_refl eq_refl eq_refl).
Qed.

(** X5.  The fields [embedding], [image_urls], [raw] and [parsed] are set
    by [__init__] and by nothing else: no [next] on the wrapper changes
    them, and a loop over the incremental view, a read of [text] and
    [__str__] all return with them as they were. *)
Theorem X5_pass_through_fields (r : Response) :
  (forall f, payload (snd (_stream_generator_wrapper json_loads f r)) = payload r) /\
  (exists seen out r1,
      iterate json_loads r = Some (seen, out, r1) /\ payload r1 = payload r) /\
  (exists v r1, text json_loads r = Some (v, r1) /\ payload r1 = payload r) /\
  (exists res r1,
      __str__ json_loads _is_json_serializable str json_dumps r = Some (res, r1) /\
      payload r1 = payload r).
Proof.
  split; [intros f; apply wrapper_payload|]. split; [|split].
  - destruct (iterate_total r) as (seen & out & r1 & H).
    exists seen, out, r1. split; [exact H|exact (iterate_payload _ _ _ _ H)].
  - destruct (text_total r) as (v & r1 & H).
    exists v, r1. split; [exact H|exact (text_payload _ _ _ H)].
  - destruct (text_total r) as (v & r1 & H). unfold __str__. rewrite H.
    destruct v; do 2 eexists; (split; [reflexivity|]); exact (text_payload _ _ _ H).
Qed.

(** X11.  When the read of [text] inside [__str__] raises, [__str__] raises
    the same exception and [json.dumps] is not reached; called again on the
    object it left, [__str__] raises nothing of its own and hands
    [json.dumps] the last item's text. *)
Theorem X11_str_raises_once (r r1 : Response) (l : list item) (e : exn) :
  _stream r = Some l -> l <> [] -> _text r = None ->
  _is_stream_exhausted r = false ->
  text json_loads r = Some (Raise e, r1) ->
  __str__ json_loads _is_json_serializable str json_dumps r = Some (Raise e, r1) /\
  __str__ json_loads _is_json_serializable str json_dumps r1
  = Some (json_dumps
            (mkSerializedFields (Some (last_text l)) (embedding r1) (image_urls r1)
               (parsed r1)
               (if _is_json_serializable (raw r1) then inl (raw r1)
                else inr (str (raw r1)))),
          r1).
Proof.
  intros Hs Hl Ht Hx H. split; [unfold __str__; now rewrite H|].
  rewrite (text_run r l Hs Hl Hx Ht) in H. injection H as _ <-.
  destruct (finalize_drained r l) as (Et & _).
  unfold __str__, text. now rewrite Et.
Qed.

(** X13.  [__str__] changes the object only through its read of [text]:
    on a response that has a text, or has no stream, or whose source is
    already empty, it returns or raises with the object exactly as it was;
    and when there is a text, what it returns is what [json.dumps] makes of
    the fields as they stand. *)
Theorem X13_str_is_read_only (r : Response) :
  _text r <> None \/ _stream r = None \/ _stream r = Some [] ->
  (exists res,
      __str__ json_loads _is_json_serializable str json_dumps r = Some (res, r)) /\
  (forall t, _text r = Some t ->
     __str__ json_loads _is_json_serializable str json_dumps r
     = Some (json_dumps
               (mkSerializedFields (Some t) (embedding r) (image_urls r) (parsed r)
                  (if _is_json_serializable (raw r) then inl (raw r)
                   else inr (str (raw r)))),
             r)).
Proof.
  intros H. split.
  - assert (T : exists v, text json_loads r = Some (v, r)).
    { destruct (_text r) as [t|] eqn:Ht.
      - unfold text. rewrite Ht. eauto.
      - destruct H as [H|[H|H]]; [congruence| |now apply text_on_drained].
        unfold text, stream. rewrite Ht, H. eauto. }
    destruct T as [v T]. unfold __str__. rewrite T. destruct v; eauto.
  - intros t Ht. unfold __str__, text. now rewrite Ht.
Qed.

End Diagnostics.

End Facts.

(** * The claims on the sample runtime *)

(** C2: the stream ["Hel"], ["lo"] settles to ["lo"]. *)
Lemma C2_witness :
  exists res r1,
    text sample_json_loads (streaming hello) = Some (res, r1) /\
    _stream r1 = Some [] /\ _text r1 = Some "lo".
Proof.
  destruct (proj2 (C2_settled_text_is_last_item PyObj sample_json_loads
                     (streaming hello) hello eq_refl ltac:(discriminate) eq_refl)
              eq_refl)
    as (res & r1 & H1 & H2 & H3 & _).
  exists res, r1. auto.
Defined.

(** C2 as stated fails: the settled text of ["Hel"], ["lo"] is ["lo"], and
    the concatenation of the two is ["Hello"]. *)
Lemma C2_counterexample :
  option_map fst (text sample_json_loads (streaming hello)) = Some (Ok (Some "lo")) /\
  spec_settled_text hello = "Hello" /\
  option_map fst (text sample_json_loads (streaming hello))
  <> Some (Ok (Some (spec_settled_text hello))).
Proof. repeat split; vm_compute; congruence. Qed.

(** C3: one complete tool call, then a plain text item. *)
Lemma C3_witness :
  exists seen out r1,
    iterate sample_json_loads (streaming one_call) = Some (seen, out, r1) /\
    tool_call_chunk_list r1 = Some [whole_call] /\
    out = None /\
    tool_calls r1
    = Some [mkToolUseBlock "tool_use" "call_1" "f" (PyInts [1%Z; 2%Z])].
Proof.
  destruct (C3_chunk_list_is_replaced PyObj sample_json_loads (streaming one_call)
              [] [Bare "b"] (mkStreamChunk "a" (Some [whole_call]))
              eq_refl eq_refl eq_refl)
    as (seen & out & r1 & H1 & H2 & H3).
  destruct (H3 [] [whole_call] _ eq_refl eq_refl eq_refl) as [H4 H5].
  exists seen, out, r1. auto.
Defined.

(** C3 as stated fails: after the two fragments ["[1,"] and ["2]"] of index
    0 the chunk list holds the second fragment alone, while merging by index
    gives one entry with the arguments ["[1,2]"]. *)
Lemma C3_counterexample :
  option_map (fun x => tool_call_chunk_list (snd x))
    (iterate sample_json_loads (streaming two_fragments))
  = Some (Some [frag_close]) /\
  spec_accumulate two_fragments
  = [mkToolCallChunk 0 "call_1" "function" (Some (mkFunctonChunk "f" "[1,2]"))] /\
  option_map (fun x => tool_call_chunk_list (snd x))
    (iterate sample_json_loads (streaming two_fragments))
  <> Some (Some (spec_accumulate two_fragments)).
Proof. repeat split; vm_compute; congruence. Qed.

(** C5: the pairs of ["Hel"], ["lo"] and what is seen on the object at each. *)
Lemma C5_witness :
  pairs hello None = [(false, "Hel"); (true, "lo")] /\
  watch sample_json_loads 3 Fresh (streaming hello)
  = [(false, "Hel", Some "Hel", Some []); (true, "lo", Some "lo", Some [])].
Proof.
  destruct (C5_pairs_run_one_behind PyObj sample_json_loads (streaming hello) hello
              eq_refl ltac:(discriminate) eq_refl)
    as (_ & _ & H & _).
  destruct (H eq_refl) as (H1 & _ & H2).
  split; [exact H1|exact H2].
Defined.

(** C5 as stated fails: a stream of one chunk, whose tool call has the
    default empty arguments, yields no pair at all; the decode error is
    raised where the pair [(True, "a")] was due. *)
Lemma C5_counterexample :
  length empty_arguments = 1 /\
  option_map fst (iterate sample_json_loads (streaming empty_arguments))
  = Some ([], Some JSONDecodeError) /\
  option_map fst (iterate sample_json_loads (streaming empty_arguments))
  <> Some ([(true, "a")], None).
Proof. repeat split; vm_compute; congruence. Qed.

(** C6: a complete tool call, then one whose arguments are empty. *)
Lemma C6_witness :
  exists r1,
    iterate sample_json_loads (streaming call_then_bad)
    = Some ([], Some JSONDecodeError, r1) /\
    text sample_json_loads (streaming call_then_bad)
    = Some (Raise JSONDecodeError, r1) /\
    tool_calls r1 = Some [mkToolUseBlock "tool_use" "call_2" "g" PyEmptyDict].
Proof.
  destruct (C6_decode_error_when_reached PyObj sample_json_loads
              (streaming call_then_bad) [] []
              (mkStreamChunk "a"
                 (Some [mkToolCallChunk 1 "call_2" "function"
                          (Some (mkFunctonChunk "g" "{}"));
                        bad_call]))
              [mkToolCallChunk 1 "call_2" "function" (Some (mkFunctonChunk "g" "{}"))]
              [] bad_call (mkFunctonChunk "f" "") []
              [mkToolUseBlock "tool_use" "call_2" "g" PyEmptyDict]
              eq_refl eq_refl eq_refl eq_refl eq_refl eq_refl eq_refl eq_refl)
    as (r1 & H1 & H2 & H3 & _).
  exists r1. split; [exact H1|]. split; [exact (H2 eq_refl)|exact H3].
Defined.

(** C6 as stated fails twice.  With a fragment without function before it,
    the entry with undecodable arguments is never decoded: the exception is
    an [AttributeError].  And when a later chunk without tool calls follows
    the chunk that carried it, the entry, which merging by index would have
    kept, is dropped with no exception at all. *)
Lemma C6_counterexample :
  (In bad_call (spec_accumulate bare_then_bad) /\
   option_map fst (iterate sample_json_loads (streaming bare_then_bad))
   = Some ([], Some AttributeError)) /\
  (In bad_call (spec_accumulate bad_then_text) /\
   option_map (fun x => (fst x, tool_calls (snd x)))
     (iterate sample_json_loads (streaming bad_then_text))
   = Some ([(false, "a"); (true, "b")], None, Some [])) /\
  sample_json_loads (fc_arguments (mkFunctonChunk "f" "")) = None.
Proof.
  repeat split; try reflexivity; vm_compute; auto.
Qed.

(** C7: two reads of [text] after the stream ["Hel"], ["lo"] was iterated. *)
Lemma C7_witness :
  exists seen out r1,
    iterate sample_json_loads (streaming hello) = Some (seen, out, r1) /\
    text sample_json_loads r1 = Some (Ok (Some "lo"), r1) /\
    text_pulls sample_json_loads r1 = 0.
Proof.
  destruct (C7_text_read_twice_pulls PyObj sample_json_loads (streaming hello) hello
              eq_refl eq_refl)
    as (seen & out & r1 & H1 & _ & _ & H2 & _ & H3 & _).
  destruct (H3 ltac:(discriminate)) as [H4 H5].
  exists seen, out, r1. split; [exact H1|]. split; [|exact H5].
  rewrite H2. now rewrite H4.
Defined.

(** C7 as stated fails: on a stream with no item and no text, drained by a
    loop over the incremental view, each of two reads of [text] returns
    [None] and leaves the object as it is, but makes one call of [next] on
    the source. *)
Lemma C7_counterexample :
  iterate sample_json_loads (streaming []) = Some ([], None, streaming []) /\
  text sample_json_loads (streaming []) = Some (Ok None, streaming []) /\
  text_pulls sample_json_loads (streaming []) = 1 /\
  text_pulls sample_json_loads (streaming []) <> 0.
Proof. repeat split. discriminate. Qed.

(** C8: a stream with no item. *)
Lemma C8_witness :
  iterate sample_json_loads (streaming []) = Some ([], None, streaming []) /\
  text sample_json_loads (streaming []) = Some (Ok None, streaming []).
Proof.
  exact (C8_empty_stream PyObj sample_json_loads (streaming []) eq_refl eq_refl).
Defined.

(** The failing input of C1 and C4, evaluated: the one-item stream ["a"] is
    iterated to completion, the flag is still [False], and a second
    iteration returns the empty sequence. *)
Example reuse_on_sample :
  let r1 := set_text (set_stream (streaming [Bare "a"]) (Some [])) (Some "a") in
  iterate sample_json_loads (streaming [Bare "a"]) = Some ([(true, "a")], None, r1) /\
  is_stream_exhausted r1 = false /\
  iterate sample_json_loads r1 = Some ([], None, r1).
Proof. repeat split. Qed.

(** * The further properties on the sample runtime *)

(** X1: the first pair of ["Hel"], ["lo"], and a read of [text] there. *)
Lemma X1_witness :
  _stream_generator_wrapper sample_json_loads Fresh (streaming hello)
  = (Yield false "Hel", Yielded "Hel" (Bare "lo"),
     set_text (set_stream (streaming hello) (Some [])) (Some "Hel")) /\
  text sample_json_loads (set_text (set_stream (streaming hello) (Some [])) (Some "Hel"))
  = Some (Ok (Some "Hel"),
          set_text (set_stream (streaming hello) (Some [])) (Some "Hel")).
Proof.
  split; [reflexivity|].
  exact (X1_text_inside_the_loop PyObj sample_json_loads Fresh
           (Yielded "Hel" (Bare "lo")) (streaming hello) _ false "Hel" eq_refl).
Defined.

(** X2: a draft written before ["Hel"], ["lo"] is iterated. *)
Lemma X2_witness :
  text sample_json_loads (text_setter (streaming hello) "draft")
  = Some (Ok (Some "draft"), text_setter (streaming hello) "draft") /\
  _stream (text_setter (streaming hello) "draft") = Some hello /\
  exists out r1 r2,
    iterate sample_json_loads (streaming hello) = Some (pairs hello out, out, r1) /\
    iterate sample_json_loads (text_setter (streaming hello) "draft")
    = Some (pairs hello out, out, r2) /\
    _text r2 = Some "lo".
Proof.
  exact (X2_text_setter_then_loop PyObj sample_json_loads (streaming hello) hello
           "draft" eq_refl ltac:(discriminate) eq_refl).
Defined.

(** X3: reading [text] on the untouched stream ["Hel"], ["lo"]. *)
Lemma X3_witness :
  exists seen out r1,
    iterate sample_json_loads (streaming hello) = Some (seen, out, r1) /\
    text sample_json_loads (streaming hello)
    = Some (match out with
            | None => Ok (_text r1)
            | Some e => Raise e
            end, r1).
Proof.
  exact (X3_text_is_iterate_then_read PyObj sample_json_loads (streaming hello)
           eq_refl ltac:(discriminate)).
Defined.

(** X4: a complete tool call, then a fragment without function. *)
Lemma X4_witness :
  exists r1,
    iterate sample_json_loads (streaming call_then_bare)
    = Some ([], Some AttributeError, r1) /\
    tool_calls r1
    = Some [mkToolUseBlock "tool_use" "call_1" "f" (PyInts [1%Z; 2%Z])] /\
    _text r1 = Some "a".
Proof.
  exact (X4_tool_uses_before_a_failure_stay PyObj sample_json_loads
           (streaming call_then_bare) call_then_bare [whole_call] [] bare_fragment
           [] [mkToolUseBlock "tool_use" "call_1" "f" (PyInts [1%Z; 2%Z])]
           AttributeError
           eq_refl ltac:(discriminate) eq_refl eq_refl eq_refl eq_refl
           (or_introl (conj eq_refl eq_refl))).
Defined.

(** X6: the tool call of the first chunk is lost to the second chunk. *)
Lemma X6_witness :
  exists r1,
    iterate sample_json_loads (streaming call_then_text)
    = Some ([(false, "a"); (true, "b")], None, r1) /\
    tool_calls r1 = Some [] /\
    tool_call_chunk_list r1 = None.
Proof.
  exact (X6_chunk_without_tool_calls_erases PyObj sample_json_loads
           (streaming call_then_text)
           [Chunk (mkStreamChunk "a" (Some [whole_call]))] []
           (mkStreamChunk "b" None) eq_refl eq_refl eq_refl eq_refl).
Defined.

(** X7: three plain text items. *)
Lemma X7_witness :
  exists r1,
    iterate sample_json_loads (streaming abc)
    = Some ([(false, "a"); (false, "b"); (true, "c")], None, r1) /\
    length [(false, "a"); (false, "b"); (true, "c")] = 3 /\
    tool_calls r1 = Some [] /\
    tool_call_chunk_list r1 = None.
Proof.
  exact (X7_text_only_stream PyObj sample_json_loads None None None None None
           abc None eq_refl ltac:(discriminate)).
Defined.

(** X8: a wrapper over ["a"], ["b"], ["c"] abandoned after its first pair. *)
Lemma X8_witness :
  exists r1,
    _stream_generator_wrapper sample_json_loads Fresh (streaming abc)
    = (Yield false "a", Yielded "a" (Bare "b"), r1) /\
    _stream r1 = Some [Bare "c"] /\
    text sample_json_loads r1 = Some (Ok (Some "a"), r1) /\
    exists seen out r2,
      iterate sample_json_loads r1 = Some (seen, out, r2) /\
      length seen <= 1 /\
      ([Bare "c"] <> [] -> seen = pairs [Bare "c"] out).
Proof.
  exact (X8_abandoned_wrapper_loses_an_item PyObj sample_json_loads (streaming abc)
           (Bare "a") (Bare "b") [Bare "c"] eq_refl eq_refl).
Defined.

(** X9: the same call under another index and another type. *)
Lemma X9_witness :
  finalize_loop sample_json_loads [whole_call] (streaming [])
  = finalize_loop sample_json_loads
      [mkToolCallChunk 7 "call_1" "other" (Some (mkFunctonChunk "f" "[1,2]"))]
      (streaming []).
Proof.
  exact (X9_index_and_type_are_ignored PyObj sample_json_loads [whole_call]
           [mkToolCallChunk 7 "call_1" "other" (Some (mkFunctonChunk "f" "[1,2]"))]
           (streaming []) eq_refl eq_refl).
Defined.

(** X10: after the decode error of [empty_arguments]. *)
Lemma X10_witness :
  exists r1,
    iterate sample_json_loads (streaming empty_arguments)
    = Some ([], Some JSONDecodeError, r1) /\
    text sample_json_loads r1 = Some (Ok (Some "a"), r1) /\
    iterate sample_json_loads r1 = Some ([], None, r1).
Proof.
  eexists. split; [reflexivity|].
  exact (X10_failed_drain_is_not_retried PyObj sample_json_loads
           (streaming empty_arguments) _ empty_arguments [] JSONDecodeError
           eq_refl ltac:(discriminate) eq_refl eq_refl).
Defined.

(** X11: [__str__] on [empty_arguments], whatever the functions it calls
    outside the module are. *)
Lemma X11_witness :
  exists r1,
    text sample_json_loads (streaming empty_arguments)
    = Some (Raise JSONDecodeError, r1) /\
    forall (ser : option PyObj -> bool) (str : option PyObj -> string)
           (dumps : serialized_fields PyObj -> result string),
      __str__ sample_json_loads ser str dumps (streaming empty_arguments)
      = Some (Raise JSONDecodeError, r1) /\
      __str__ sample_json_loads ser str dumps r1
      = Some (dumps
                (mkSerializedFields (Some "a") (embedding r1) (image_urls r1)
                   (parsed r1)
                   (if ser (raw r1) then inl (raw r1) else inr (str (raw r1)))),
              r1).
Proof.
  eexists. split; [reflexivity|]. intros ser str dumps.
  exact (X11_str_raises_once PyObj sample_json_loads ser str dumps
           (streaming empty_arguments) _ empty_arguments JSONDecodeError
           eq_refl ltac:(discriminate) eq_refl eq_refl eq_refl).
Defined.

(** X12: the tool use built from [one_call]. *)
Lemma X12_witness :
  exists r1,
    iterate sample_json_loads (streaming one_call)
    = Some ([(false, "a"); (true, "b")], None, r1) /\
    exists bs,
      tool_calls r1 = Some bs /\
      map (@tu_id PyObj) bs = ["call_1"] /\
      map (fun b => Some (tu_name PyObj b)) bs = [Some "f"] /\
      map (fun b => Some (tu_input PyObj b)) bs = [Some (PyInts [1%Z; 2%Z])] /\
      Forall (fun b => tu_type PyObj b = "tool_use") bs.
Proof.
  eexists. split; [reflexivity|].
  exact (X12_one_tool_use_per_entry PyObj sample_json_loads (streaming one_call) _
           one_call [whole_call] [] _ eq_refl ltac:(discriminate) eq_refl eq_refl
           eq_refl eq_refl).
Defined.

(** X13: [__str__] on a response built with a text and a stream, whatever
    the functions it calls outside the module are. *)
Lemma X13_witness :
  (_text done_response <> None \/ _stream done_response = None \/
   _stream done_response = Some []) /\
  forall (ser : option PyObj -> bool) (str : option PyObj -> string)
         (dumps : serialized_fields PyObj -> result string),
    (exists res,
        __str__ sample_json_loads ser str dumps done_response
        = Some (res, done_response)) /\
    (forall t, _text done_response = Some t ->
       __str__ sample_json_loads ser str dumps done_response
       = Some (dumps
                 (mkSerializedFields (Some t) (embedding done_response)
                    (image_urls done_response) (parsed done_response)
                    (if ser (raw done_response) then inl (raw done_response)
                     else inr (str (raw done_response)))),
               done_response)).
Proof.
  assert (H : _text done_response <> None \/ _stream done_response = None \/
              _stream done_response = Some []) by (left; discriminate).
  split; [exact H|]. intros ser str dumps.
  apply (X13_str_is_read_only PyObj sample_json_loads ser str dumps done_response H).
Defined.

(** X14: the first pair of ["Hel"], ["lo"] is marked [False], and the next
    [next] does not end the loop. *)
Lemma X14_witness :
  (exists it, Yielded "Hel" (Bare "lo") = Yielded "Hel" it) /\
  fst (fst (_stream_generator_wrapper sample_json_loads (Yielded "Hel" (Bare "lo"))
              (set_text (set_stream (streaming hello) (Some [])) (Some "Hel"))))
  <> StopIteration.
Proof.
  exact (proj2 (X14_is_last_flag PyObj sample_json_loads Fresh
                  (Yielded "Hel" (Bare "lo")) (streaming hello) _ false "Hel"
                  eq_refl) eq_refl).
Defined.
